(** * The signaling relay (main.go): rooms, clients and message routing

    A shallow embedding of the Go server: the process-wide [rooms] map,
    the [Room] objects it points to, the [handleMessages] goroutines, and
    the handlers [handleRooms], [handleWebSocket], [handleMessages],
    [notifyRoom], [forwardMessage] and [broadcastToRoom].

    Handlers are modelled as running to completion one at a time; the two
    mutexes only delimit critical sections and carry no state of their own.
    [*Room] pointers are addresses into an explicit store, because a
    goroutine keeps the pointer it was started with while the registry may
    meanwhile map the same identifier to another object. *)

From Stdlib Require Import ZArith String Ascii List.
From stdpp Require Import gmap strings list fin_maps.

Local Open Scope string_scope.

(** ** Data model *)

(** [type Client struct]: [Conn] is the identity of the websocket
    connection (a handle, fresh per successful upgrade). *)
Module Client.
Record t : Type := mk {
  Conn : nat;
  ID : string;
  RoomID : string;
  Username : string
}.
End Client.

(** [type Message struct]: [json.RawMessage] fields are byte strings, the
    empty one standing for an absent field ([omitempty]). *)
Module Message.
Record t : Type := mk {
  Type_ : string;
  From : string;
  To : string;
  RoomID : string;
  Username : string;
  SDP : string;
  Candidate : string
}.
End Message.

Global Instance Client_eq_dec : EqDecision Client.t.
Proof. solve_decision. Defined.

Global Instance Message_eq_dec : EqDecision Message.t.
Proof. solve_decision. Defined.

(** What a handler does to the outside world: a text frame written on a
    connection ([Conn.WriteMessage(websocket.TextMessage, json.Marshal msg)],
    recorded with the message whose encoding is written), or a connection
    closed. *)
Inductive Effect : Type :=
| WriteMessage (conn : nat) (msg : Message.t)
| Close (conn : nat).

Global Instance Effect_eq_dec : EqDecision Effect.
Proof. solve_decision. Defined.

(** The HTTP answer of a handler. *)
Inductive Response : Type :=
| JSONRoomId (roomId : string)
| JSONRooms (ids : list string)
| HttpError (error : string) (code : Z)
| UpgradeFailed
| Upgraded (conn : nat).

(** [type Room struct]: the [Clients] map; a [*Room] is an address. *)
Abbreviation Room := (gmap string Client.t).

Record State : Type := mkState {
  rooms : gmap string nat;              (* var rooms = make(map[string]*Room) *)
  heap : gmap nat Room;                 (* the Room objects, by address *)
  tasks : gmap nat (Client.t * nat);    (* running handleMessages(client, room), by connection *)
  nextRoom : nat;                       (* next unused Room address *)
  nextConn : nat                        (* next unused connection handle *)
}.

Definition init : State := mkState ∅ ∅ ∅ 0 0.

(** [room.Clients] for a pointer [room]. *)
Definition Clients (st : State) (room : nat) : Room :=
  default ∅ (heap st !! room).

Definition StatusBadRequest : Z := 400.
Definition StatusMethodNotAllowed : Z := 405.
Definition TextMessage : Z := 1.

(** ** Room identifiers *)

Definition charset : string :=
  "abcdefghijklmnopqrstuvwxyzABCDEFGHIJKLMNOPQRSTUVWXYZ0123456789".

(** [charset[i]] *)
Definition charAt (s : string) (i : nat) : ascii :=
  default Ascii.zero (String.get i s).

(** [randomString]: [b[i] = charset[i%len(charset)]] for [i] from 0. *)
Fixpoint randomBytes (i n : nat) : string :=
  match n with
  | O => EmptyString
  | S n' => String (charAt charset (i mod String.length charset))
                   (randomBytes (S i) n')
  end.

Definition randomString (length : nat) : string := randomBytes 0 length.

Definition generateRoomID : string := "room-" ++ randomString 8.

(** ** Routing *)

(** The loop of [broadcastToRoom] over the members, skipping the sender. *)
Fixpoint broadcastLoop (members : list (string * Client.t)) (msg : Message.t)
  : list Effect :=
  match members with
  | [] => []
  | (_, client) :: rest =>
      if String.eqb (Client.ID client) (Message.From msg)
      then broadcastLoop rest msg
      else WriteMessage (Client.Conn client) msg :: broadcastLoop rest msg
  end.

Definition broadcastToRoom (st : State) (roomID : string) (msg : Message.t)
  : list Effect :=
  match rooms st !! roomID with
  | None => []
  | Some room => broadcastLoop (map_to_list (Clients st room)) msg
  end.

Definition forwardMessage (st : State) (msg : Message.t) : list Effect :=
  match rooms st !! Message.RoomID msg with
  | None => []
  | Some room =>
      match Clients st room !! Message.To msg with
      | None => []
      | Some targetClient => [WriteMessage (Client.Conn targetClient) msg]
      end
  end.

Definition notifyRoom (st : State) (roomID clientID eventType username : string)
  : list Effect :=
  let msg := Message.mk eventType clientID "" roomID username "" "" in
  broadcastToRoom st roomID msg.

(** ** HTTP handlers *)

Definition handleRooms (st : State) (method : string) : State * Response :=
  if String.eqb method "POST" then
    let roomID := generateRoomID in
    let room := nextRoom st in
    (mkState (<[roomID := room]> (rooms st)) (<[room := ∅]> (heap st))
             (tasks st) (S room) (nextConn st),
     JSONRoomId roomID)
  else if String.eqb method "GET" then
    (st, JSONRooms ((map_to_list (rooms st)).*1))
  else (st, HttpError "Method not allowed" StatusMethodNotAllowed).

(** [url.Values] and its [Get]: the first value of the key, or the empty
    string. *)
Abbreviation Values := (gmap string (list string)).

Definition Get (v : Values) (key : string) : string :=
  match v !! key with
  | Some (x :: _) => x
  | _ => ""
  end.

(** [handleWebSocket]; [upgrade] says whether [upgrader.Upgrade] succeeds. *)
Definition handleWebSocket (st : State) (query : Values) (upgrade : bool)
  : State * Response * list Effect :=
  let roomID := Get query "roomId" in
  let clientID := Get query "clientId" in
  let username := Get query "username" in
  if String.eqb roomID "" || String.eqb clientID "" || String.eqb username ""
  then (st, HttpError "Missing required parameters" StatusBadRequest, [])
  else
    let '(st1, room) :=
      match rooms st !! roomID with
      | Some room => (st, room)
      | None =>
          let room := nextRoom st in
          (mkState (<[roomID := room]> (rooms st)) (<[room := ∅]> (heap st))
                   (tasks st) (S room) (nextConn st), room)
      end in
    if negb upgrade then (st1, UpgradeFailed, [])
    else
      let conn := nextConn st1 in
      let client := Client.mk conn clientID roomID username in
      let st2 :=
        mkState (rooms st1)
                (<[room := <[clientID := client]> (Clients st1 room)]> (heap st1))
                (tasks st1) (nextRoom st1) (S conn) in
      let out := notifyRoom st2 roomID clientID "join" username in
      (mkState (rooms st2) (heap st2) (<[conn := (client, room)]> (tasks st2))
               (nextRoom st2) (nextConn st2),
       Upgraded conn, out).

(** ** The read loop of a connection *)

(** The deferred function of [handleMessages]; the goroutine ends with it. *)
Definition teardown (st : State) (client : Client.t) (room : nat)
  : State * list Effect :=
  let st1 :=
    mkState (rooms st)
            (<[room := delete (Client.ID client) (Clients st room)]> (heap st))
            (delete (Client.Conn client) (tasks st))
            (nextRoom st) (nextConn st) in
  if (size (Clients st1 room) =? 0)%nat then
    (mkState (delete (Client.RoomID client) (rooms st1)) (heap st1) (tasks st1)
             (nextRoom st1) (nextConn st1),
     [Close (Client.Conn client)])
  else
    (st1,
     Close (Client.Conn client)
       :: notifyRoom st1 (Client.RoomID client) (Client.ID client) "leave"
            (Client.Username client)).

(** [client.Conn.ReadMessage()] *)
Inductive ReadResult : Type :=
| ReadError
| ReadOk (messageType : Z) (payload : string).

Inductive LoopStep : Type :=
| Break
| Continue (out : list Effect).

(** [msg.From = client.ID; msg.RoomID = client.RoomID] *)
Definition stamp (client : Client.t) (msg : Message.t) : Message.t :=
  Message.mk (Message.Type_ msg) (Client.ID client) (Message.To msg)
             (Client.RoomID client) (Message.Username msg) (Message.SDP msg)
             (Message.Candidate msg).

(** The [switch msg.Type] of the loop. *)
Definition dispatch (st : State) (client : Client.t) (msg : Message.t)
  : list Effect :=
  let ty := Message.Type_ msg in
  if String.eqb ty "offer" || String.eqb ty "answer"
     || String.eqb ty "ice-candidate" then
    if negb (String.eqb (Message.To msg) "") then forwardMessage st msg else []
  else if String.eqb ty "chat" then
    broadcastToRoom st (Client.RoomID client) msg
  else [].

Section Relay.

(** [json.Unmarshal(payload, &msg)] into a zero [Message]: the decoded
    message, or [None] on a decoding error. *)
Variable Unmarshal : string -> option Message.t.

(** One iteration of the [for] loop of [handleMessages]. *)
Definition loopBody (st : State) (client : Client.t) (r : ReadResult)
  : LoopStep :=
  match r with
  | ReadError => Break
  | ReadOk messageType payload =>
      if negb (messageType =? TextMessage)%Z then Continue []
      else
        match Unmarshal payload with
        | None => Continue []
        | Some msg => Continue (dispatch st client (stamp client msg))
        end
  end.

(** ** The server as a transition system *)

Inductive Event : Type :=
| HttpRooms (method : string)                      (* a request to /api/rooms *)
| HttpWebSocket (query : Values) (upgrade : bool)  (* a request to /ws *)
| ConnRead (conn : nat) (r : ReadResult).          (* ReadMessage returns on conn *)

Definition step (st : State) (ev : Event) : State * list Effect :=
  match ev with
  | HttpRooms method => ((handleRooms st method).1, [])
  | HttpWebSocket query upgrade =>
      let '(st', _, out) := handleWebSocket st query upgrade in (st', out)
  | ConnRead conn r =>
      match tasks st !! conn with
      | None => (st, [])
      | Some (client, room) =>
          match loopBody st client r with
          | Continue out => (st, out)
          | Break => teardown st client room
          end
      end
  end.

Fixpoint run (st : State) (evs : list Event) : State * list Effect :=
  match evs with
  | [] => (st, [])
  | ev :: evs' =>
      let '(st1, out1) := step st ev in
      let '(st2, out2) := run st1 evs' in
      (st2, (out1 ++ out2)%list)
  end.

(** ** Notions used in the statements *)

(** The members of the room the registry holds under [roomID] (none when
    the registry has no such room). *)
Definition roomOf (st : State) (roomID : string) : Room :=
  match rooms st !! roomID with
  | Some room => Clients st room
  | None => ∅
  end.

(** One frame carrying [msg] for every entry of a member mapping. *)
Definition deliveries (members : Room) (msg : Message.t) : list Effect :=
  (λ kc, WriteMessage (Client.Conn kc.2) msg) <$> map_to_list members.

(** A request parameter that is absent, or whose first value is empty. *)
Definition missingOrEmpty (query : Values) (key : string) : Prop :=
  match query !! key with
  | Some (x :: _) => x = ""
  | _ => True
  end.

(** The message types routed to a single peer. *)
Definition unicastType (ty : string) : Prop :=
  ty = "offer" ∨ ty = "answer" ∨ ty = "ice-candidate".

(** Two decoded messages that differ at most in [from] and [roomId]. *)
Definition sameButOrigin (m1 m2 : Message.t) : Prop :=
  Message.Type_ m1 = Message.Type_ m2 ∧ Message.To m1 = Message.To m2 ∧
  Message.Username m1 = Message.Username m2 ∧
  Message.SDP m1 = Message.SDP m2 ∧
  Message.Candidate m1 = Message.Candidate m2.

(** Shape of the states the handlers produce: a goroutine is filed under
    its own connection, which is older than [nextConn], and serves a client
    with a non-empty identifier; an entry of a member mapping sits under the
    client's own identifier and its goroutine is running on that room. *)
Record wf (st : State) : Prop := mkWf {
  wf_task : ∀ n c a, tasks st !! n = Some (c, a) →
              Client.Conn c = n ∧ n < nextConn st ∧ Client.ID c ≠ "";
  wf_member : ∀ a k c, Clients st a !! k = Some c →
              Client.ID c = k ∧ tasks st !! Client.Conn c = Some (c, a)
}.

(** The room object [room] is in the registry. *)
Definition registered (st : State) (room : nat) : Prop :=
  ∃ roomID, rooms st !! roomID = Some room.

(** The registry holds exactly the rooms that have a member. *)
Definition registryInvariant (st : State) : Prop :=
  ∀ room, registered st room ↔ 0 < size (Clients st room).

(** An event of a plain join-and-leave history: not a room-creation
    request, not an upgrade that fails, and not a join under a client
    identifier that the room currently holds. *)
Definition plain (st : State) (ev : Event) : bool :=
  match ev with
  | HttpRooms method => negb (String.eqb method "POST")
  | HttpWebSocket query upgrade =>
      let roomID := Get query "roomId" in
      let clientID := Get query "clientId" in
      let username := Get query "username" in
      String.eqb roomID "" || String.eqb clientID "" || String.eqb username ""
      || (upgrade && bool_decide (roomOf st roomID !! clientID = None))
  | ConnRead _ _ => true
  end.

Fixpoint plainHistory (st : State) (evs : list Event) : bool :=
  match evs with
  | [] => true
  | ev :: evs' => plain st ev && plainHistory (step st ev).1 evs'
  end.

(** What plain histories maintain on top of [wf]: registered addresses are
    allocated and registered once; a running goroutine's room is the one
    the registry holds under its room identifier, and its client is that
    room's entry under its client identifier; registered rooms have a
    member. *)
Record tidy (st : State) : Prop := mkTidy {
  tidy_alloc : ∀ rid a, rooms st !! rid = Some a → a < nextRoom st;
  tidy_inj : ∀ r1 r2 a,
      rooms st !! r1 = Some a → rooms st !! r2 = Some a → r1 = r2;
  tidy_task_room : ∀ n c a, tasks st !! n = Some (c, a) →
      rooms st !! Client.RoomID c = Some a;
  tidy_task_member : ∀ n c a, tasks st !! n = Some (c, a) →
      Clients st a !! Client.ID c = Some c;
  tidy_nonempty : ∀ rid a, rooms st !! rid = Some a → Clients st a ≠ ∅
}.

(** The state a successful join leaves. *)
Definition joined (st : State) (roomID clientID username : string) : State :=
  let room := default (nextRoom st) (rooms st !! roomID) in
  let client := Client.mk (nextConn st) clientID roomID username in
  mkState (<[roomID := room]> (rooms st))
          (<[room := <[clientID := client]> (roomOf st roomID)]> (heap st))
          (<[nextConn st := (client, room)]> (tasks st))
          (match rooms st !! roomID with
           | Some _ => nextRoom st
           | None => S (nextRoom st)
           end)
          (S (nextConn st)).

(** The [leave] notification for a client. *)
Definition leaveOf (client : Client.t) : Message.t :=
  Message.mk "leave" (Client.ID client) "" (Client.RoomID client)
             (Client.Username client) "" "".

(** The [join] notification for a client. *)
Definition joinOf (client : Client.t) : Message.t :=
  Message.mk "join" (Client.ID client) "" (Client.RoomID client)
             (Client.Username client) "" "".

(** The message types the loop routes at all. *)
Definition routedType (ty : string) : Prop :=
  unicastType ty ∨ ty = "chat".

(** The room identifier an event is about: the one a room-creation request
    generates, the one an upgrade request names, the one of the connection
    that reads. *)
Definition eventRoom (st : State) (ev : Event) : option string :=
  match ev with
  | HttpRooms method =>
      if String.eqb method "POST" then Some generateRoomID else None
  | HttpWebSocket query _ => Some (Get query "roomId")
  | ConnRead conn _ =>
      match tasks st !! conn with
      | Some (client, _) => Some (Client.RoomID client)
      | None => None
      end
  end.

(** What the parameter check of [handleWebSocket] and the shape of the
    generated identifiers guarantee: no room is registered under the empty
    identifier and no connection runs for a client with an empty
    identifier, room or name. *)
Record validated (st : State) : Prop := mkValidated {
  validated_room : ∀ rid a, rooms st !! rid = Some a → rid ≠ "";
  validated_task : ∀ n c a, tasks st !! n = Some (c, a) →
      Client.ID c ≠ "" ∧ Client.RoomID c ≠ "" ∧ Client.Username c ≠ ""
}.

(** How the registry and the goroutines' room pointers fit together in
    every state: addresses in use are allocated, an address is registered
    under one identifier at most, and a room that is registered while a
    goroutine runs on it is registered under that goroutine's room
    identifier. *)
Record coherent (st : State) : Prop := mkCoherent {
  coherent_alloc : ∀ rid a, rooms st !! rid = Some a → a < nextRoom st;
  coherent_task : ∀ n c a, tasks st !! n = Some (c, a) → a < nextRoom st;
  coherent_inj : ∀ r1 r2 a,
      rooms st !! r1 = Some a → rooms st !! r2 = Some a → r1 = r2;
  coherent_name : ∀ n c a rid,
      tasks st !! n = Some (c, a) → rooms st !! rid = Some a →
      rid = Client.RoomID c
}.

(** A connection that existed and whose goroutine has ended. *)
Definition terminated (st : State) (conn : nat) : Prop :=
  conn < nextConn st ∧ tasks st !! conn = None.

(** An effect that touches connection [conn]. *)
Definition reaches (conn : nat) (e : Effect) : Prop :=
  e = Close conn ∨ ∃ m, e = WriteMessage conn m.

(** ** Sample inputs *)

(** The query [?roomId=..&clientId=..&username=..]. *)
Definition sampleQuery (roomID clientID username : string) : Values :=
  <["roomId" := [roomID]]>
    (<["clientId" := [clientID]]> (<["username" := [username]]> ∅)).

(** A decoder for a handful of payloads, standing in for [json.Unmarshal]
    in the examples: a payload names the message type and, after a colon,
    the target; the payloads starting with [forged] claim somebody else's
    [from] and [roomId]. *)
Definition sampleUnmarshal (payload : string) : option Message.t :=
  if String.eqb payload "chat" then
    Some (Message.mk "chat" "" "" "" "" "" "")
  else if String.eqb payload "forged chat" then
    Some (Message.mk "chat" "b" "" "elsewhere" "" "" "")
  else if String.eqb payload "offer:a" then
    Some (Message.mk "offer" "" "a" "" "" "v=0" "")
  else if String.eqb payload "offer:b" then
    Some (Message.mk "offer" "" "b" "" "" "v=0" "")
  else if String.eqb payload "offer:ghost" then
    Some (Message.mk "offer" "" "ghost" "" "" "v=0" "")
  else None.

(** Clients [a] and [b] have joined room [r]. *)
Definition sampleJoins : list Event :=
  [HttpWebSocket (sampleQuery "r" "a" "A") true;
   HttpWebSocket (sampleQuery "r" "b" "B") true].

Definition clientA : Client.t := Client.mk 0 "a" "r" "A".
Definition clientB : Client.t := Client.mk 1 "b" "r" "B".

(** The first connection's identifier [x] has been taken over by a
    second join. *)
Definition sampleCollision : list Event :=
  [HttpWebSocket (sampleQuery "r" "x" "first") true;
   HttpWebSocket (sampleQuery "r" "x" "second") true].

(** Clients [a] and [b] are in room [r], client [c] is in room [s]. *)
Definition sampleTwoRooms : list Event :=
  (sampleJoins ++ [HttpWebSocket (sampleQuery "s" "c" "C") true])%list.


(** ** Basic facts *)

Lemma Clients_insert rs h ts nr nc a R a' :
  Clients (mkState rs (<[a := R]> h) ts nr nc) a' =
  if decide (a = a') then R else Clients (mkState rs h ts nr nc) a'.
Proof.
  unfold Clients; simpl. rewrite lookup_insert. by case_decide.
Qed.

Lemma Clients_frame rs rs' h ts ts' nr nr' nc nc' a :
  Clients (mkState rs h ts nr nc) a = Clients (mkState rs' h ts' nr' nc') a.
Proof. reflexivity. Qed.

Lemma eqb_false_ne (s t : string) : String.eqb s t = false ↔ s ≠ t.
Proof. apply String.eqb_neq. Qed.

Lemma Get_empty query key : Get query key = "" ↔ missingOrEmpty query key.
Proof.
  unfold Get, missingOrEmpty. destruct (query !! key) as [[|x l]|]; done.
Qed.

Lemma broadcastLoop_others members msg :
  Forall (λ kc, Client.ID kc.2 ≠ Message.From msg) members →
  broadcastLoop members msg =
  (λ kc, WriteMessage (Client.Conn kc.2) msg) <$> members.
Proof.
  induction 1 as [|[k c] l Hne _ IH]; simpl; [done|].
  apply String.eqb_neq in Hne. simpl in Hne. by rewrite Hne, IH.
Qed.

Lemma broadcastLoop_perm l1 l2 msg :
  l1 ≡ₚ l2 → broadcastLoop l1 msg ≡ₚ broadcastLoop l2 msg.
Proof.
  induction 1 as [|[k c] l l' _ IH|[k c] [k' c'] l|l l' l'' _ IH1 _ IH2];
    simpl.
  - done.
  - destruct (String.eqb _ _); by rewrite IH.
  - destruct (String.eqb (Client.ID c) _), (String.eqb (Client.ID c') _);
      try done. apply perm_swap.
  - by etrans.
Qed.

Lemma broadcastLoop_elem members msg e :
  e ∈ broadcastLoop members msg →
  ∃ k c, (k, c) ∈ members ∧ Client.ID c ≠ Message.From msg ∧
         e = WriteMessage (Client.Conn c) msg.
Proof.
  induction members as [|[k c] l IH]; simpl; [by intros ?%elem_of_nil|].
  destruct (String.eqb _ _) eqn:E.
  - intros (k' & c' & ? & ?)%IH. exists k', c'. split; [by right|done].
  - intros [->|(k' & c' & ? & ?)%IH]%elem_of_cons.
    + exists k, c. apply String.eqb_neq in E. split; [by left|done].
    + exists k', c'. split; [by right|done].
Qed.

Lemma broadcastLoop_intro members msg k c :
  (k, c) ∈ members → Client.ID c ≠ Message.From msg →
  WriteMessage (Client.Conn c) msg ∈ broadcastLoop members msg.
Proof.
  intros Hin Hne. induction members as [|[k' c'] l IH];
    [by apply elem_of_nil in Hin|].
  simpl. apply elem_of_cons in Hin as [[= <- <-]|Hin].
  - apply String.eqb_neq in Hne. rewrite Hne. by left.
  - destruct (String.eqb _ _); [by apply IH|]. right. by apply IH.
Qed.

Lemma dispatch_writes st client msg e :
  e ∈ dispatch st client msg → ∃ peer, e = WriteMessage peer msg.
Proof.
  unfold dispatch. destruct (_ || _).
  - destruct (negb _); [|by intros ?%elem_of_nil].
    unfold forwardMessage.
    destruct (rooms st !! _); [|by intros ?%elem_of_nil].
    destruct (Clients st _ !! _) as [tc|]; [|by intros ?%elem_of_nil].
    intros ->%list_elem_of_singleton. by exists (Client.Conn tc).
  - destruct (String.eqb _ "chat"); [|by intros ?%elem_of_nil].
    unfold broadcastToRoom.
    destruct (rooms st !! _); [|by intros ?%elem_of_nil].
    intros (k & c & _ & _ & ->)%broadcastLoop_elem.
    by exists (Client.Conn c).
Qed.

(** With every entry filed under its client's identifier, the loop reaches
    the whole mapping but the sender's entry. *)
Lemma broadcastLoop_members (R : Room) msg :
  (∀ k c, R !! k = Some c → Client.ID c = k) →
  broadcastLoop (map_to_list R) msg ≡ₚ
  deliveries (delete (Message.From msg) R) msg.
Proof.
  intros Hid. unfold deliveries.
  assert (Hrest : Forall (λ kc : string * Client.t,
                      Client.ID kc.2 ≠ Message.From msg)
                    (map_to_list (delete (Message.From msg) R))).
  { apply Forall_forall. intros [k c] Hin%elem_of_map_to_list.
    apply lookup_delete_Some in Hin as [Hne Hin]. simpl.
    rewrite (Hid _ _ Hin). congruence. }
  destruct (R !! Message.From msg) as [c|] eqn:E.
  - rewrite (broadcastLoop_perm _ _ msg
               (symmetry (map_to_list_delete R _ _ E))).
    simpl. rewrite (Hid _ _ E), String.eqb_refl.
    by rewrite (broadcastLoop_others _ _ Hrest).
  - rewrite (delete_id _ _ E) in Hrest |- *.
    by rewrite (broadcastLoop_others _ _ Hrest).
Qed.

Lemma handleWebSocket_reject st query upgrade :
  Get query "roomId" = "" ∨ Get query "clientId" = "" ∨
  Get query "username" = "" →
  handleWebSocket st query upgrade =
  (st, HttpError "Missing required parameters" StatusBadRequest, []).
Proof.
  intros H. unfold handleWebSocket.
  destruct H as [-> | [-> | ->]]; simpl; [done| |].
  - by rewrite orb_true_r.
  - by rewrite orb_true_r.
Qed.

(** ** Room creation *)

(** C2: the room-creation operation does not generate a fresh identifier.
    [generateRoomID] returns the same string at every call, so two
    consecutive POST requests answer the same roomId, and the second one
    finds that identifier already in the registry and replaces the room
    stored under it. *)
Theorem createRoom_repeats_identifier :
  generateRoomID = "room-abcdefgh" ∧
  ∀ st,
    let r1 := handleRooms st "POST" in
    let r2 := handleRooms r1.1 "POST" in
    r1.2 = JSONRoomId generateRoomID ∧ r2.2 = r1.2 ∧
    rooms r1.1 !! generateRoomID = Some (nextRoom st) ∧
    rooms r2.1 !! generateRoomID = Some (S (nextRoom st)).
Proof.
  split; [reflexivity|]. intros st. simpl.
  repeat split; by rewrite lookup_insert_eq.
Qed.

(** ** Upgrade requests *)

(** C7: an upgrade request with a missing or empty [roomId], [clientId] or
    [username] is answered with HTTP 400 whatever the upgrader would have
    done, writes nothing, and leaves the registry, the rooms, the
    connections and the allocation counters as they were. *)
Theorem handleWebSocket_rejects_missing_parameter st query upgrade :
  missingOrEmpty query "roomId" ∨ missingOrEmpty query "clientId" ∨
  missingOrEmpty query "username" →
  handleWebSocket st query upgrade =
  (st, HttpError "Missing required parameters" 400, []).
Proof.
  intros H. apply handleWebSocket_reject. by rewrite !Get_empty.
Qed.

(** ** The read loop *)

(** C8: a frame that is not a text frame, or whose payload does not decode,
    is skipped: the loop body continues without writing anything, the whole
    state (registry, rooms, running goroutines) is unchanged, and the loop
    body breaks on a read error only. *)
Theorem skipped_frame_keeps_connection st conn client room messageType payload :
  tasks st !! conn = Some (client, room) →
  messageType ≠ TextMessage ∨ Unmarshal payload = None →
  loopBody st client (ReadOk messageType payload) = Continue [] ∧
  step st (ConnRead conn (ReadOk messageType payload)) = (st, []) ∧
  ∀ r, loopBody st client r = Break ↔ r = ReadError.
Proof.
  intros Ht H.
  assert (Hbody : loopBody st client (ReadOk messageType payload) = Continue []).
  { simpl. destruct H as [Hne | ->].
    - apply Z.eqb_neq in Hne. by rewrite Hne.
    - by destruct (negb _). }
  split; [done|]. split.
  - unfold step. by rewrite Ht, Hbody.
  - intros [|mt p]; simpl; [done|].
    destruct (negb _); [done|]. destruct (Unmarshal p); done.
Qed.

Lemma dispatch_unicast st client msg :
  unicastType (Message.Type_ msg) →
  dispatch st client (stamp client msg) =
  if decide (Message.To msg = "") then []
  else match roomOf st (Client.RoomID client) !! Message.To msg with
       | Some target => [WriteMessage (Client.Conn target) (stamp client msg)]
       | None => []
       end.
Proof.
  intros Hty. unfold dispatch, forwardMessage, roomOf. simpl.
  assert (String.eqb (Message.Type_ msg) "offer"
          || String.eqb (Message.Type_ msg) "answer"
          || String.eqb (Message.Type_ msg) "ice-candidate" = true) as ->.
  { destruct Hty as [-> | [-> | ->]]; reflexivity. }
  case_decide as Hto.
  - by rewrite Hto.
  - apply String.eqb_neq in Hto. rewrite Hto. simpl.
    destruct (rooms st !! _); [|by rewrite lookup_empty].
    by destruct (Clients st _ !! _).
Qed.



(** ** Broadcast *)

Lemma dispatch_chat st client msg :
  Message.Type_ msg = "chat" →
  dispatch st client (stamp client msg) =
  broadcastToRoom st (Client.RoomID client) (stamp client msg).
Proof. intros Hty. unfold dispatch. simpl. by rewrite Hty. Qed.

Lemma wf_same_conn st a a' k c c' :
  wf st → Clients st a !! k = Some c →
  tasks st !! Client.Conn c = Some (c', a') → c = c' ∧ a = a'.
Proof.
  intros Hwf Hc Ht. destruct (wf_member _ Hwf _ _ _ Hc) as [_ Ht'].
  rewrite Ht in Ht'. by injection Ht' as -> ->.
Qed.

(** C3: the loop overwrites [from] and [roomId] of the decoded message
    with the connection's own client and room identifiers before it routes.
    A text frame is routed as the message [sent], whose [from] and [roomId]
    are the connection's and whose other fields are the decoded ones: every
    frame written carries [sent]; a [chat] writes [sent] to every entry of
    the room registered under the connection's room identifier that is
    filed under another client identifier; a unicast with a present target
    writes [sent] to that target.  Two frames whose messages differ only in
    the [from] and [roomId] the client wrote are handled identically (same
    state, same frames to the same connections). *)
Theorem origin_is_stamped st conn client room messageType p1 p2 m1 m2 :
  tasks st !! conn = Some (client, room) →
  Unmarshal p1 = Some m1 → Unmarshal p2 = Some m2 →
  sameButOrigin m1 m2 →
  let sent := Message.mk (Message.Type_ m1) (Client.ID client) (Message.To m1)
                (Client.RoomID client) (Message.Username m1) (Message.SDP m1)
                (Message.Candidate m1) in
  let res := step st (ConnRead conn (ReadOk TextMessage p1)) in
  step st (ConnRead conn (ReadOk messageType p1)) =
  step st (ConnRead conn (ReadOk messageType p2)) ∧
  res = (st, dispatch st client sent) ∧
  (∀ e, e ∈ res.2 → ∃ peer, e = WriteMessage peer sent) ∧
  (Message.Type_ m1 = "chat" →
   ∀ k c, roomOf st (Client.RoomID client) !! k = Some c →
          Client.ID c ≠ Client.ID client →
          WriteMessage (Client.Conn c) sent ∈ res.2) ∧
  (unicastType (Message.Type_ m1) → Message.To m1 ≠ "" →
   ∀ target, roomOf st (Client.RoomID client) !! Message.To m1 = Some target →
             res.2 = [WriteMessage (Client.Conn target) sent]).
Proof.
  intros Ht H1 H2 (Hty & Hto & Hu & Hs & Hc). cbv zeta.
  set (sent := Message.mk _ _ _ _ _ _ _).
  assert (Hs1 : stamp client m1 = sent) by done.
  assert (Hs2 : stamp client m2 = sent).
  { unfold stamp, sent. by rewrite Hty, Hto, Hu, Hs, Hc. }
  split. { unfold step. rewrite Ht. simpl. by rewrite H1, H2, Hs1, Hs2. }
  assert (step st (ConnRead conn (ReadOk TextMessage p1)) =
          (st, dispatch st client sent)) as ->.
  { unfold step. rewrite Ht. simpl. by rewrite H1, Hs1. }
  split; [done|]. simpl. split; [|split].
  - intros e He. by apply (dispatch_writes st client).
  - intros Hchat k c Hk Hne. rewrite <- Hs1, (dispatch_chat _ _ _ Hchat).
    unfold broadcastToRoom. unfold roomOf in Hk.
    destruct (rooms st !! Client.RoomID client) as [a|];
      [|by rewrite lookup_empty in Hk].
    apply (broadcastLoop_intro _ _ k); [by apply elem_of_map_to_list|done].
  - intros Huni Hne target Htg.
    rewrite <- Hs1, (dispatch_unicast _ _ _ Huni), decide_False by done.
    by rewrite Htg.
Qed.


(** ** Termination of a connection *)

Lemma teardown_state st client room :
  let st1 := mkState (rooms st)
               (<[room := delete (Client.ID client) (Clients st room)]> (heap st))
               (delete (Client.Conn client) (tasks st))
               (nextRoom st) (nextConn st) in
  teardown st client room =
  if decide (delete (Client.ID client) (Clients st room) = ∅) then
    (mkState (delete (Client.RoomID client) (rooms st)) (heap st1) (tasks st1)
             (nextRoom st) (nextConn st),
     [Close (Client.Conn client)])
  else
    (st1, Close (Client.Conn client)
            :: broadcastToRoom st1 (Client.RoomID client) (leaveOf client)).
Proof.
  simpl. unfold teardown. rewrite Clients_insert, decide_True by done.
  destruct (size _ =? 0)%nat eqn:E.
  - apply Nat.eqb_eq, map_size_empty_iff in E. by rewrite decide_True.
  - apply Nat.eqb_neq in E. rewrite decide_False; [done|].
    by intros ?%map_size_empty_iff.
Qed.


(** ** Joining *)

Lemma handleWebSocket_joined st query :
  let roomID := Get query "roomId" in
  let clientID := Get query "clientId" in
  let username := Get query "username" in
  roomID ≠ "" → clientID ≠ "" → username ≠ "" →
  handleWebSocket st query true =
  (joined st roomID clientID username, Upgraded (nextConn st),
   notifyRoom (joined st roomID clientID username) roomID clientID "join"
     username).
Proof.
  intros roomID clientID username Hr Hc Hu. unfold handleWebSocket.
  cbv zeta. subst roomID clientID username.
  apply String.eqb_neq in Hr, Hc, Hu. rewrite Hr, Hc, Hu. simpl.
  set (roomID := Get query "roomId").
  unfold joined, roomOf, notifyRoom, broadcastToRoom.
  destruct (rooms st !! roomID) as [room|] eqn:E; simpl.
  - rewrite (insert_id _ _ _ E). by rewrite E.
  - rewrite !lookup_insert_eq. unfold Clients at 1 3. simpl.
    rewrite !lookup_insert_eq. simpl. by rewrite !insert_insert_eq.
Qed.

Lemma handleWebSocket_failed st query :
  let roomID := Get query "roomId" in
  Get query "roomId" ≠ "" → Get query "clientId" ≠ "" →
  Get query "username" ≠ "" →
  handleWebSocket st query false =
  (match rooms st !! roomID with
   | Some _ => st
   | None => mkState (<[roomID := nextRoom st]> (rooms st))
                     (<[nextRoom st := ∅]> (heap st))
                     (tasks st) (S (nextRoom st)) (nextConn st)
   end, UpgradeFailed, []).
Proof.
  intros roomID Hr Hc Hu. unfold handleWebSocket. cbv zeta. subst roomID.
  apply String.eqb_neq in Hr, Hc, Hu. rewrite Hr, Hc, Hu. simpl.
  by destruct (rooms st !! Get query "roomId").
Qed.

Lemma handleWebSocket_cases st query upgrade :
  let roomID := Get query "roomId" in
  let clientID := Get query "clientId" in
  let username := Get query "username" in
  (handleWebSocket st query upgrade).1.1 = st ∨
  (roomID ≠ "" ∧ clientID ≠ "" ∧ username ≠ "" ∧
   ((upgrade = true ∧
     (handleWebSocket st query upgrade).1.1 =
       joined st roomID clientID username) ∨
    (upgrade = false ∧ rooms st !! roomID = None ∧
     (handleWebSocket st query upgrade).1.1 =
       mkState (<[roomID := nextRoom st]> (rooms st))
               (<[nextRoom st := ∅]> (heap st))
               (tasks st) (S (nextRoom st)) (nextConn st)))).
Proof.
  intros roomID clientID username.
  destruct (decide (roomID = "")) as [Hr|Hr].
  { left. rewrite handleWebSocket_reject; [done|]. by left. }
  destruct (decide (clientID = "")) as [Hc|Hc].
  { left. rewrite handleWebSocket_reject; [done|]. by right; left. }
  destruct (decide (username = "")) as [Hu|Hu].
  { left. rewrite handleWebSocket_reject; [done|]. by right; right. }
  destruct upgrade.
  - right. repeat (split; [done|]). left. split; [done|].
    by rewrite handleWebSocket_joined.
  - rewrite handleWebSocket_failed by done. fold roomID.
    destruct (rooms st !! roomID) eqn:E; [by left|].
    right. repeat (split; [done|]). right. done.
Qed.

(** ** Preservation of [wf] *)

Lemma wf_init : wf init.
Proof. split; intros *; unfold Clients; simpl; by rewrite lookup_empty. Qed.

Lemma wf_fresh_room st roomID :
  wf st →
  wf (mkState (<[roomID := nextRoom st]> (rooms st))
              (<[nextRoom st := ∅]> (heap st))
              (tasks st) (S (nextRoom st)) (nextConn st)).
Proof.
  intros [Ht Hm]. split; simpl.
  - apply Ht.
  - intros a k c. rewrite Clients_insert. case_decide; [by rewrite lookup_empty|].
    intros Hk. apply (Hm a k c). by destruct st.
Qed.

Lemma wf_handleRooms st method : wf st → wf (handleRooms st method).1.
Proof.
  intros Hwf. unfold handleRooms.
  destruct (String.eqb method "POST"); simpl; [by apply wf_fresh_room|].
  by destruct (String.eqb method "GET").
Qed.

Lemma wf_joined st roomID clientID username :
  wf st → clientID ≠ "" → wf (joined st roomID clientID username).
Proof.
  intros Hwf Hc. pose proof Hwf as [Ht Hm]. unfold joined.
  set (room := default _ _). set (client := Client.mk _ _ _ _).
  assert (Hold : ∀ k c, roomOf st roomID !! k = Some c →
                   Clients st room !! k = Some c).
  { intros k c. unfold roomOf, room.
    destruct (rooms st !! roomID); simpl; [done|by rewrite lookup_empty]. }
  split; simpl.
  - intros n c a [[<- [= <- <-]] | [Hn Hl]]%lookup_insert_Some; simpl.
    + split; [done|]. split; [lia|done].
    + destruct (Ht _ _ _ Hl) as (? & ? & ?). split; [done|]. split; [lia|done].
  - intros a k c. rewrite Clients_insert.
    assert (Hkeep : Clients st a !! k = Some c →
              Client.ID c = k ∧
              <[nextConn st := (client, room)]> (tasks st) !! Client.Conn c =
              Some (c, a)).
    { intros Hk. destruct (Hm _ _ _ Hk) as [Hid Htk]. split; [done|].
      rewrite lookup_insert_ne; [done|].
      destruct (Ht _ _ _ Htk) as (_ & ? & _). lia. }
    case_decide as Ha.
    + subst a. intros [[<- <-] | [Hk Hl]]%lookup_insert_Some.
      * split; [done|]. simpl. by rewrite lookup_insert_eq.
      * by apply Hkeep, Hold.
    + intros Hk. apply Hkeep. by destruct st.
Qed.

Lemma wf_teardown st n client room :
  wf st → tasks st !! n = Some (client, room) →
  wf (teardown st client room).1.
Proof.
  intros Hwf Htk. pose proof Hwf as [Ht Hm].
  destruct (Ht _ _ _ Htk) as (Hconn & _ & _).
  rewrite teardown_state. rewrite Hconn.
  assert (Htasks : ∀ n' c a, delete n (tasks st) !! n' = Some (c, a) →
            Client.Conn c = n' ∧ n' < nextConn st ∧ Client.ID c ≠ "").
  { intros n' c a [_ Hl]%lookup_delete_Some. by apply (Ht _ _ _ Hl). }
  assert (Hmem : ∀ rs nr nc a k c,
            Clients (mkState rs
               (<[room := delete (Client.ID client) (Clients st room)]> (heap st))
               (delete n (tasks st)) nr nc) a !! k = Some c →
            Client.ID c = k ∧ delete n (tasks st) !! Client.Conn c = Some (c, a)).
  { intros rs nr nc a k c. rewrite Clients_insert.
    assert (Hkeep : Clients st a !! k = Some c →
              (a = room → k ≠ Client.ID client) →
              Client.ID c = k ∧
              delete n (tasks st) !! Client.Conn c = Some (c, a)).
    { intros Hk Hne. destruct (Hm _ _ _ Hk) as [Hid Hc]. split; [done|].
      apply lookup_delete_Some. split; [|done].
      intros Hn. rewrite <- Hn in Hc. rewrite Htk in Hc.
      injection Hc as -> ->. by apply Hne. }
    case_decide as Ha.
    - subst a. intros [Hne Hk]%lookup_delete_Some. apply Hkeep; [done|].
      by intros _ ->.
    - intros Hk. apply Hkeep; [by destruct st|done]. }
  case_decide; split; simpl; try apply Htasks; apply Hmem.
Qed.

Lemma step_wf st ev : wf st → wf (step st ev).1.
Proof.
  intros Hwf. destruct ev as [method|query upgrade|conn r]; simpl.
  - by apply wf_handleRooms.
  - destruct (handleWebSocket st query upgrade) as [[st' resp] out] eqn:E.
    simpl.
    destruct (handleWebSocket_cases st query upgrade)
      as [H | (Hr & Hc & Hu & [[_ H] | (_ & _ & H)])];
      rewrite E in H; simpl in H; subst st'.
    + done.
    + by apply wf_joined.
    + by apply wf_fresh_room.
  - destruct (tasks st !! conn) as [[client room]|] eqn:Ht; [|done].
    destruct (loopBody st client r); [|done].
    by apply (wf_teardown st conn).
Qed.

Lemma run_wf evs : ∀ st, wf st → wf (run st evs).1.
Proof.
  induction evs as [|ev evs IH]; intros st Hwf; simpl; [done|].
  pose proof (step_wf st ev Hwf) as Hwf1.
  destruct (step st ev) as [st1 out1]. simpl in Hwf1.
  specialize (IH st1 Hwf1).
  by destruct (run st1 evs) as [st2 out2].
Qed.

(** C9: a join under a client identifier that the room's mapping already
    holds replaces that entry.  After the join the mapping is the old one
    with the new connection's client stored under the identifier, every
    other room object is unchanged, the registry is unchanged, and nothing
    (no frame, no close) goes to the connection that was evicted. *)
Theorem join_overwrites_colliding_entry st query room old :
  let roomID := Get query "roomId" in
  let clientID := Get query "clientId" in
  let username := Get query "username" in
  let new := Client.mk (nextConn st) clientID roomID username in
  wf st →
  roomID ≠ "" → username ≠ "" →
  rooms st !! roomID = Some room →
  Clients st room !! clientID = Some old →
  let res := handleWebSocket st query true in
  res.1.2 = Upgraded (Client.Conn new) ∧
  Client.Conn new ≠ Client.Conn old ∧
  Clients res.1.1 room = <[clientID := new]> (Clients st room) ∧
  (∀ a, a ≠ room → Clients res.1.1 a = Clients st a) ∧
  rooms res.1.1 = rooms st ∧
  (∀ e, e ∈ res.2 → e ≠ Close (Client.Conn old) ∧
                    ∀ m, e ≠ WriteMessage (Client.Conn old) m).
Proof.
  intros roomID clientID username new Hwf Hr Hu Hroom Hold.
  destruct (wf_member _ Hwf _ _ _ Hold) as [Hid Htk].
  destruct (wf_task _ Hwf _ _ _ Htk) as (_ & Hlt & Hne).
  assert (Hc : clientID ≠ "") by congruence.
  simpl. rewrite handleWebSocket_joined by done.
  fold roomID clientID username. simpl.
  unfold joined. fold new. rewrite Hroom. simpl.
  unfold roomOf. rewrite Hroom.
  rewrite (insert_id _ _ _ Hroom).
  split; [done|]. split; [simpl; lia|].
  split; [by rewrite Clients_insert, decide_True|].
  split. { intros a Ha. rewrite Clients_insert, decide_False by done.
           by destruct st. }
  split; [done|].
  intros e He. unfold notifyRoom, broadcastToRoom in He. simpl in He.
  rewrite Hroom in He.
  apply broadcastLoop_elem in He as (k & c & Hin & Hk & ->).
  split; [done|]. intros m [= Hconn _].
  apply elem_of_map_to_list in Hin.
  rewrite Clients_insert, decide_True in Hin by done.
  apply lookup_insert_Some in Hin as [[<- <-] | [Hkne Hin]].
  - by apply Hk.
  - rewrite <- Hconn in Htk.
    destruct (wf_same_conn _ _ _ _ _ _ Hwf Hin Htk) as [-> _].
    destruct (wf_member _ Hwf _ _ _ Hin) as [Hid' _]. congruence.
Qed.

(** ** Plain histories keep the registry in step with the rooms *)

Lemma tidy_init : tidy init.
Proof. split; intros *; simpl; by rewrite lookup_empty. Qed.

Lemma tidy_joined st roomID clientID username :
  wf st → tidy st →
  roomOf st roomID !! clientID = None →
  tidy (joined st roomID clientID username).
Proof.
  intros [Ht Hm] [Ha Hi Hr Hmem Hne] Hfree. unfold joined.
  set (client := Client.mk _ _ _ _).
  destruct (rooms st !! roomID) as [room|] eqn:E; simpl.
  - rewrite (insert_id _ _ _ E).
    assert (HR : roomOf st roomID = Clients st room)
      by (unfold roomOf; by rewrite E).
    rewrite HR in Hfree |- *.
    split; simpl.
    + done.
    + done.
    + intros n c a [[<- [= <- <-]] | [Hn Hl]]%lookup_insert_Some; simpl;
        [done|by apply (Hr n)].
    + intros n c a Hl. rewrite Clients_insert.
      apply lookup_insert_Some in Hl as [[<- [= <- <-]] | [Hn Hl]].
      * rewrite decide_True by done. simpl. by rewrite lookup_insert_eq.
      * pose proof (Hmem _ _ _ Hl) as Hc. case_decide as Hroom.
        -- subst a. rewrite lookup_insert_ne; [done|]. congruence.
        -- by destruct st.
    + intros rid a Hl. rewrite Clients_insert. case_decide.
      * intros Hemp. apply (f_equal (λ m : Room, m !! clientID)) in Hemp.
        by rewrite lookup_insert_eq, lookup_empty in Hemp.
      * pose proof (Hne _ _ Hl). by destruct st.
  - assert (HR : roomOf st roomID = ∅) by (unfold roomOf; by rewrite E).
    rewrite HR.
    assert (Hfresh : ∀ rid, rooms st !! rid ≠ Some (nextRoom st)).
    { intros rid Hl. apply Ha in Hl. lia. }
    split; simpl.
    + intros rid a [[_ <-] | [_ Hl]]%lookup_insert_Some; [lia|].
      apply Ha in Hl. lia.
    + intros r1 r2 a [[<- <-] | [? H1]]%lookup_insert_Some
                     [[<- E2] | [? H2]]%lookup_insert_Some; try done.
      * by destruct (Hfresh r2).
      * subst a. by destruct (Hfresh r1).
      * by apply (Hi r1 r2 a).
    + intros n c a [[<- [= <- <-]] | [Hn Hl]]%lookup_insert_Some; simpl.
      * by rewrite lookup_insert_eq.
      * pose proof (Hr _ _ _ Hl) as Hreg.
        rewrite lookup_insert_ne; [done|]. congruence.
    + intros n c a Hl. rewrite Clients_insert.
      apply lookup_insert_Some in Hl as [[<- [= <- <-]] | [Hn Hl]].
      * rewrite decide_True by done. simpl. by rewrite lookup_insert_eq.
      * pose proof (Hr _ _ _ Hl) as Hreg. rewrite decide_False.
        -- pose proof (Hmem _ _ _ Hl). by destruct st.
        -- intros <-. by destruct (Hfresh (Client.RoomID c)).
    + intros rid a Hl. rewrite Clients_insert.
      apply lookup_insert_Some in Hl as [[<- <-] | [? Hl]].
      * rewrite decide_True by done.
        intros Hemp. apply (f_equal (λ m : Room, m !! clientID)) in Hemp.
        by rewrite lookup_insert_eq, lookup_empty in Hemp.
      * rewrite decide_False.
        -- pose proof (Hne _ _ Hl). by destruct st.
        -- intros <-. by destruct (Hfresh rid).
Qed.

Lemma tidy_teardown st n client room :
  wf st → tidy st → tasks st !! n = Some (client, room) →
  tidy (teardown st client room).1.
Proof.
  intros Hwf [Ha Hi Hr Hmem Hne] Htk. pose proof Hwf as [Ht Hm].
  destruct (Ht _ _ _ Htk) as (Hconn & _ & _).
  rewrite teardown_state. rewrite Hconn.
  set (R' := delete (Client.ID client) (Clients st room)).
  (* another goroutine of the same room keeps its entry *)
  assert (Hother : ∀ n2 c2, delete n (tasks st) !! n2 = Some (c2, room) →
            R' !! Client.ID c2 = Some c2).
  { intros n2 c2 [Hn2 Hl]%lookup_delete_Some.
    apply lookup_delete_Some. split; [|by apply (Hmem n2)].
    intros Hid. pose proof (Hmem _ _ _ Hl) as H2.
    pose proof (Hmem _ _ _ Htk) as H1. rewrite Hid in H1.
    rewrite H1 in H2. injection H2 as <-.
    destruct (Ht _ _ _ Hl) as (Hc2 & _ & _). congruence. }
  assert (Hmem' : ∀ rs nr nc n2 c2 a2,
            delete n (tasks st) !! n2 = Some (c2, a2) →
            Clients (mkState rs (<[room := R']> (heap st))
                       (delete n (tasks st)) nr nc) a2 !! Client.ID c2 =
            Some c2).
  { intros rs nr nc n2 c2 a2 Hl. rewrite Clients_insert. case_decide as Ha2.
    - subst a2. by apply (Hother n2).
    - apply lookup_delete_Some in Hl as [_ Hl].
      pose proof (Hmem _ _ _ Hl). by destruct st. }
  case_decide as HR; split; simpl.
  - intros rid a [_ Hl]%lookup_delete_Some. by apply (Ha rid).
  - intros r1 r2 a [_ H1]%lookup_delete_Some [_ H2]%lookup_delete_Some.
    by apply (Hi r1 r2 a).
  - intros n2 c2 a2 Hl. pose proof Hl as [Hn2 Hl']%lookup_delete_Some.
    pose proof (Hr _ _ _ Hl') as Hreg.
    apply lookup_delete_Some. split; [|done].
    intros Hrid. rewrite <- Hrid in Hreg.
    rewrite (Hr _ _ _ Htk) in Hreg. injection Hreg as <-.
    pose proof (Hother _ _ Hl) as Hin. rewrite HR in Hin.
    by rewrite lookup_empty in Hin.
  - apply Hmem'.
  - intros rid a [Hrid Hl]%lookup_delete_Some. rewrite Clients_insert.
    case_decide as Hroom.
    + subst a. destruct Hrid. by apply (Hi _ _ room (Hr _ _ _ Htk) Hl).
    + pose proof (Hne _ _ Hl). by destruct st.
  - done.
  - done.
  - intros n2 c2 a2 [_ Hl]%lookup_delete_Some. by apply (Hr n2).
  - apply Hmem'.
  - intros rid a Hl. rewrite Clients_insert. case_decide; [done|].
    pose proof (Hne _ _ Hl). by destruct st.
Qed.

Lemma plain_step_tidy st ev :
  wf st → tidy st → plain st ev = true → tidy (step st ev).1.
Proof.
  intros Hwf Htidy Hplain.
  destruct ev as [method|query upgrade|conn r]; simpl in *.
  - unfold handleRooms. apply negb_true_iff in Hplain. rewrite Hplain.
    by destruct (String.eqb method "GET").
  - destruct (handleWebSocket st query upgrade) as [[st' resp] out] eqn:E.
    simpl.
    destruct (handleWebSocket_cases st query upgrade)
      as [H | (Hr & Hc & Hu & [[-> H] | (-> & _ & H)])];
      rewrite E in H; simpl in H; subst st'.
    + done.
    + apply String.eqb_neq in Hr, Hc, Hu.
      rewrite Hr, Hc, Hu in Hplain. simpl in Hplain.
      apply bool_decide_eq_true in Hplain.
      by apply tidy_joined.
    + apply String.eqb_neq in Hr, Hc, Hu.
      by rewrite Hr, Hc, Hu in Hplain.
  - destruct (tasks st !! conn) as [[client room]|] eqn:Ht; [|done].
    destruct (loopBody st client r); [|done].
    by apply (tidy_teardown st conn).
Qed.

Lemma plain_run_tidy evs : ∀ st,
  wf st → tidy st → plainHistory st evs = true →
  wf (run st evs).1 ∧ tidy (run st evs).1.
Proof.
  induction evs as [|ev evs IH]; intros st Hwf Htidy Hplain; simpl; [done|].
  simpl in Hplain. apply andb_true_iff in Hplain as [Hev Hrest].
  pose proof (step_wf st ev Hwf) as Hwf1.
  pose proof (plain_step_tidy st ev Hwf Htidy Hev) as Htidy1.
  destruct (step st ev) as [st1 out1]. simpl in *.
  specialize (IH st1 Hwf1 Htidy1 Hrest).
  by destruct (run st1 evs) as [st2 out2].
Qed.

Lemma tidy_registryInvariant st : wf st → tidy st → registryInvariant st.
Proof.
  intros [Ht Hm] [Ha Hi Hr Hmem Hne] room. split.
  - intros [rid Hl]. apply Hne in Hl.
    apply map_size_non_empty_iff in Hl. lia.
  - intros Hsz.
    assert (Clients st room ≠ ∅) as (k & c & Hk)%map_choose.
    { apply map_size_non_empty_iff. lia. }
    destruct (Hm _ _ _ Hk) as [_ Htk]. exists (Client.RoomID c).
    by apply (Hr _ _ _ Htk).
Qed.

(** C1, amended: along every history made of successful joins, inbound
    frames, terminations and room listings (no room-creation request, no
    failed upgrade, no join under a client identifier the room currently
    holds), at every point a room object is in the registry if and only if
    its member count is greater than zero. *)
Theorem plain_history_registry_invariant evs :
  plainHistory init evs = true →
  registryInvariant (run init evs).1.
Proof.
  intros Hplain.
  destruct (plain_run_tidy evs init wf_init tidy_init Hplain).
  by apply tidy_registryInvariant.
Qed.

(** ** Further properties: identifiers and the room listing *)

Lemma get_in_range (s : string) : ∀ k, k < String.length s →
  String.get k s = Some (charAt s k).
Proof.
  unfold charAt. induction s as [|c s IH]; intros k Hk; simpl in *; [lia|].
  destruct k as [|k]; [done|]. simpl. apply IH. lia.
Qed.

Lemma randomBytes_length n : ∀ i, String.length (randomBytes i n) = n.
Proof. induction n as [|n IH]; intros i; simpl; [done|]. by rewrite IH. Qed.

Lemma randomBytes_get n : ∀ i j, j < n →
  String.get j (randomBytes i n) =
  Some (charAt charset ((i + j) mod String.length charset)).
Proof.
  induction n as [|n IH]; intros i j Hj; [lia|]. simpl randomBytes.
  destruct j as [|j]; simpl String.get.
  - by rewrite Nat.add_0_r.
  - rewrite IH by lia. do 3 f_equal. lia.
Qed.

(** [randomString n] has [n] bytes, and its byte at position [j] is the
    byte of [charset] at position [j] modulo the length of [charset]: the
    string is a prefix of the alphabet repeated, whatever [n]. *)
Theorem randomString_cycles_through_charset n j :
  j < n →
  String.length (randomString n) = n ∧
  String.get j (randomString n) =
  String.get (j mod String.length charset) charset.
Proof.
  intros Hj. unfold randomString. split; [apply randomBytes_length|].
  rewrite randomBytes_get by done. simpl (0 + j).
  symmetry. apply get_in_range. apply Nat.mod_upper_bound. by vm_compute.
Qed.

(** A GET on the rooms endpoint leaves the state alone and lists exactly
    the identifiers the registry holds, each once. *)
Theorem listing_reflects_registry st :
  ∃ ids, handleRooms st "GET" = (st, JSONRooms ids) ∧
         NoDup ids ∧ length ids = size (rooms st) ∧
         ∀ roomID, roomID ∈ ids ↔ is_Some (rooms st !! roomID).
Proof.
  exists ((map_to_list (rooms st)).*1). split; [done|].
  split; [apply NoDup_fst_map_to_list|].
  split; [by rewrite length_fmap, length_map_to_list|].
  intros roomID. rewrite list_elem_of_fmap. split.
  - intros [[k a] [-> Hin%elem_of_map_to_list]]. by exists a.
  - intros [a Ha]. exists (roomID, a). split; [done|].
    by apply elem_of_map_to_list.
Qed.

(** Only the exact method [POST] changes the state through the rooms
    endpoint, and a method that is neither [POST] nor [GET] is answered
    with 405. *)
Theorem handleRooms_other_methods st method :
  method ≠ "POST" →
  (handleRooms st method).1 = st ∧
  (method ≠ "GET" →
   (handleRooms st method).2 = HttpError "Method not allowed" 405).
Proof.
  intros Hp%String.eqb_neq. unfold handleRooms. rewrite Hp.
  split.
  - by destruct (String.eqb method "GET").
  - intros Hg%String.eqb_neq. by rewrite Hg.
Qed.

(** A room-creation request empties the room registered under the
    generated identifier: whoever had joined that identifier before is no
    longer in the registered room, and a broadcast to it reaches nobody. *)
Theorem room_creation_resets_registered_room st msg :
  let st' := (handleRooms st "POST").1 in
  roomOf st' generateRoomID = ∅ ∧
  broadcastToRoom st' generateRoomID msg = [] ∧
  (∀ a, a ≠ nextRoom st → Clients st' a = Clients st a).
Proof.
  simpl. unfold roomOf, broadcastToRoom. simpl.
  rewrite lookup_insert_eq, Clients_insert, decide_True by done.
  split; [done|]. split; [by rewrite map_to_list_empty|].
  intros a Ha. rewrite Clients_insert, decide_False by done. by destruct st.
Qed.

(** ** Further properties: joining *)

Lemma joined_roomOf st roomID clientID username :
  roomOf (joined st roomID clientID username) roomID =
  <[clientID := Client.mk (nextConn st) clientID roomID username]>
    (roomOf st roomID).
Proof.
  unfold roomOf at 1. unfold joined. simpl.
  by rewrite lookup_insert_eq, Clients_insert, decide_True.
Qed.

Lemma joined_notification st roomID clientID username :
  notifyRoom (joined st roomID clientID username) roomID clientID "join"
    username =
  broadcastLoop
    (map_to_list
       (<[clientID := Client.mk (nextConn st) clientID roomID username]>
          (roomOf st roomID)))
    (joinOf (Client.mk (nextConn st) clientID roomID username)).
Proof.
  unfold notifyRoom, broadcastToRoom.
  pose proof (joined_roomOf st roomID clientID username) as H.
  unfold roomOf at 1 in H.
  destruct (rooms (joined st roomID clientID username) !! roomID) eqn:E.
  - by rewrite H.
  - unfold joined in E. simpl in E. by rewrite lookup_insert_eq in E.
Qed.

Lemma roomOf_member st roomID k c :
  wf st → roomOf st roomID !! k = Some c →
  Client.ID c = k ∧ ∃ a, rooms st !! roomID = Some a ∧
                         tasks st !! Client.Conn c = Some (c, a).
Proof.
  intros Hwf. unfold roomOf.
  destruct (rooms st !! roomID) as [a|]; [|by rewrite lookup_empty].
  intros Hk. destruct (wf_member _ Hwf _ _ _ Hk). eauto.
Qed.

(** A join into a room the registry does not know creates the room,
    registers it under the requested identifier with the joiner as its
    only member, starts the joiner's goroutine on it and notifies nobody. *)
Theorem join_unknown_room_creates_it st query :
  let roomID := Get query "roomId" in
  let clientID := Get query "clientId" in
  let username := Get query "username" in
  let new := Client.mk (nextConn st) clientID roomID username in
  roomID ≠ "" → clientID ≠ "" → username ≠ "" →
  rooms st !! roomID = None →
  let res := handleWebSocket st query true in
  res.1.2 = Upgraded (nextConn st) ∧ res.2 = [] ∧
  rooms res.1.1 = <[roomID := nextRoom st]> (rooms st) ∧
  roomOf res.1.1 roomID = {[clientID := new]} ∧
  tasks res.1.1 = <[nextConn st := (new, nextRoom st)]> (tasks st).
Proof.
  intros roomID clientID username new Hr Hc Hu Hnone. simpl.
  rewrite handleWebSocket_joined by done. fold roomID clientID username.
  simpl. rewrite joined_notification, joined_roomOf.
  assert (HR : roomOf st roomID = ∅) by (unfold roomOf; by rewrite Hnone).
  rewrite HR, insert_empty. fold new.
  split; [done|]. split.
  - rewrite map_to_list_singleton. simpl. by rewrite String.eqb_refl.
  - unfold joined. simpl. by rewrite Hnone.
Qed.

(** A room made by a room-creation request is the one a following join
    under the answered identifier lands in: no second room is allocated,
    the registry is unchanged by the join, and the joiner is the room's
    only member. *)
Theorem created_room_is_joined st query :
  let clientID := Get query "clientId" in
  let username := Get query "username" in
  let new := Client.mk (nextConn st) clientID generateRoomID username in
  Get query "roomId" = generateRoomID → clientID ≠ "" → username ≠ "" →
  let st1 := (handleRooms st "POST").1 in
  let res := handleWebSocket st1 query true in
  res.1.2 = Upgraded (nextConn st) ∧ res.2 = [] ∧
  rooms res.1.1 = rooms st1 ∧ nextRoom res.1.1 = nextRoom st1 ∧
  roomOf res.1.1 generateRoomID = {[clientID := new]} ∧
  tasks res.1.1 !! nextConn st = Some (new, nextRoom st).
Proof.
  intros clientID username new Hr Hc Hu. simpl.
  assert (Hrid : Get query "roomId" ≠ "") by (rewrite Hr; by vm_compute).
  rewrite handleWebSocket_joined by done.
  fold clientID username. rewrite Hr. simpl.
  rewrite joined_notification, joined_roomOf. simpl.
  assert (HR : roomOf (handleRooms st "POST").1 generateRoomID = ∅).
  { unfold roomOf. simpl.
    by rewrite lookup_insert_eq, Clients_insert, decide_True. }
  simpl in HR. rewrite HR, insert_empty. fold new.
  split; [done|]. split.
  { rewrite map_to_list_singleton. simpl. by rewrite String.eqb_refl. }
  unfold joined. simpl. rewrite !lookup_insert_eq. simpl.
  split; [by rewrite insert_insert_eq|]. done.
Qed.

(** A join is announced with one [join] frame, naming the joiner, to each
    entry of the room other than the one under the joiner's identifier;
    nothing goes to the joiner's own connection. *)
Theorem join_notifies_other_members st query :
  let roomID := Get query "roomId" in
  let clientID := Get query "clientId" in
  let username := Get query "username" in
  let new := Client.mk (nextConn st) clientID roomID username in
  wf st →
  roomID ≠ "" → clientID ≠ "" → username ≠ "" →
  let res := handleWebSocket st query true in
  res.2 ≡ₚ deliveries (delete clientID (roomOf st roomID)) (joinOf new) ∧
  ∀ e, e ∈ res.2 → ¬ reaches (Client.Conn new) e.
Proof.
  intros roomID clientID username new Hwf Hr Hc Hu. simpl.
  rewrite handleWebSocket_joined by done. fold roomID clientID username.
  simpl. rewrite joined_notification. fold new.
  assert (Hid : ∀ k c, <[clientID := new]> (roomOf st roomID) !! k = Some c →
                  Client.ID c = k).
  { intros k c [[<- <-] | [_ Hk]]%lookup_insert_Some; [done|].
    by destruct (roomOf_member _ _ _ _ Hwf Hk). }
  split.
  - rewrite (broadcastLoop_members _ _ Hid). simpl.
    by rewrite delete_insert_eq.
  - intros e (k & c & Hin & Hne & ->)%broadcastLoop_elem.
    intros [[=] | [m [= Hconn _]]].
    apply elem_of_map_to_list in Hin.
    apply lookup_insert_Some in Hin as [[<- <-] | [_ Hk]]; [by apply Hne|].
    destruct (roomOf_member _ _ _ _ Hwf Hk) as (_ & a & _ & Htk).
    destruct (wf_task _ Hwf _ _ _ Htk) as (_ & Hlt & _).
    rewrite Hconn in Hlt. simpl in Hlt. lia.
Qed.

(** When the upgrade fails no connection comes to exist: nothing is
    written, no goroutine is started, the member mapping of the requested
    room is what it was.  The room identifier is registered all the same,
    so an unknown room stays behind empty. *)
Theorem failed_upgrade_creates_no_connection st query :
  let roomID := Get query "roomId" in
  roomID ≠ "" → Get query "clientId" ≠ "" → Get query "username" ≠ "" →
  let res := handleWebSocket st query false in
  res.1.2 = UpgradeFailed ∧ res.2 = [] ∧
  tasks res.1.1 = tasks st ∧ nextConn res.1.1 = nextConn st ∧
  roomOf res.1.1 roomID = roomOf st roomID ∧
  is_Some (rooms res.1.1 !! roomID) ∧
  (is_Some (rooms st !! roomID) → res.1.1 = st).
Proof.
  intros roomID Hr Hc Hu. simpl.
  rewrite handleWebSocket_failed by done. fold roomID. unfold roomOf.
  destruct (rooms st !! roomID) as [room|] eqn:E; simpl.
  - rewrite E. eauto 10.
  - rewrite lookup_insert_eq, Clients_insert, decide_True by done.
    do 5 (split; [done|]). split; [eauto|]. intros [? ?]. discriminate.
Qed.

(** A join adds one member to the registered room, unless the room already
    holds the client identifier, in which case the count is unchanged. *)
Theorem join_member_count st query :
  let roomID := Get query "roomId" in
  let clientID := Get query "clientId" in
  roomID ≠ "" → clientID ≠ "" → Get query "username" ≠ "" →
  let res := handleWebSocket st query true in
  size (roomOf res.1.1 roomID) =
  if decide (is_Some (roomOf st roomID !! clientID))
  then size (roomOf st roomID) else S (size (roomOf st roomID)).
Proof.
  intros roomID clientID Hr Hc Hu. simpl.
  rewrite handleWebSocket_joined by done. fold roomID clientID. simpl.
  rewrite joined_roomOf. case_decide as Hin.
  - by apply map_size_insert_Some.
  - apply map_size_insert_None. by apply eq_None_not_Some.
Qed.

(** ** Further properties: frames and terminations *)

Lemma step_websocket st query upgrade :
  step st (HttpWebSocket query upgrade) =
  ((handleWebSocket st query upgrade).1.1,
   (handleWebSocket st query upgrade).2).
Proof. simpl. by destruct (handleWebSocket st query upgrade) as [[? ?] ?]. Qed.

Lemma step_read_error st conn client room :
  tasks st !! conn = Some (client, room) →
  step st (ConnRead conn ReadError) = teardown st client room.
Proof. intros Ht. unfold step. by rewrite Ht. Qed.

Lemma step_read_ok st conn messageType payload :
  (step st (ConnRead conn (ReadOk messageType payload))).1 = st.
Proof.
  unfold step. destruct (tasks st !! conn) as [[client room]|]; [|done].
  simpl. destruct (negb _); [done|]. by destruct (Unmarshal payload).
Qed.

Lemma dispatch_effects st client msg e :
  e ∈ dispatch st client (stamp client msg) →
  routedType (Message.Type_ msg) ∧
  ∃ k c, roomOf st (Client.RoomID client) !! k = Some c ∧
         e = WriteMessage (Client.Conn c) (stamp client msg).
Proof.
  unfold dispatch, routedType, unicastType, roomOf. simpl.
  destruct (String.eqb (Message.Type_ msg) "offer") eqn:E1;
  [|destruct (String.eqb (Message.Type_ msg) "answer") eqn:E2;
    [|destruct (String.eqb (Message.Type_ msg) "ice-candidate") eqn:E3]];
  simpl.
  1-3: destruct (negb _); [|by intros ?%elem_of_nil];
       unfold forwardMessage; simpl;
       destruct (rooms st !! _); [|by intros ?%elem_of_nil];
       destruct (Clients st _ !! _) as [tc|] eqn:Etc;
       [|by intros ?%elem_of_nil];
       intros ->%list_elem_of_singleton.
  - apply String.eqb_eq in E1. split; [by left; left|]. eauto.
  - apply String.eqb_eq in E2. split; [by left; right; left|]. eauto.
  - apply String.eqb_eq in E3. split; [by left; right; right|]. eauto.
  - destruct (String.eqb (Message.Type_ msg) "chat") eqn:E4;
      [|by intros ?%elem_of_nil].
    apply String.eqb_eq in E4. unfold broadcastToRoom.
    destruct (rooms st !! _); [|by intros ?%elem_of_nil].
    intros (k & c & Hin%elem_of_map_to_list & _ & ->)%broadcastLoop_elem.
    split; [by right|]. eauto.
Qed.

Lemma frame_effects st conn client room messageType payload e :
  tasks st !! conn = Some (client, room) →
  e ∈ (step st (ConnRead conn (ReadOk messageType payload))).2 →
  ∃ msg k c, Unmarshal payload = Some msg ∧
             routedType (Message.Type_ msg) ∧
             roomOf st (Client.RoomID client) !! k = Some c ∧
             e = WriteMessage (Client.Conn c) (stamp client msg).
Proof.
  intros Ht. unfold step. rewrite Ht. simpl.
  destruct (negb _); [by intros ?%elem_of_nil|].
  destruct (Unmarshal payload) as [msg|]; [|by intros ?%elem_of_nil].
  simpl. intros (Hty & k & c & Hk & ->)%dispatch_effects.
  exists msg, k, c. done.
Qed.

(** Whatever a client sends, the state is unchanged and every effect is a
    frame carrying the stamped message, written to an entry of the room
    registered under the sender's room identifier; and something is written
    only for the types [offer], [answer], [ice-candidate] and [chat], so a
    client cannot have a [join] or [leave] of its own making relayed. *)
Theorem frames_are_relayed_within_room st conn client room messageType payload :
  tasks st !! conn = Some (client, room) →
  let res := step st (ConnRead conn (ReadOk messageType payload)) in
  res.1 = st ∧
  ∀ e, e ∈ res.2 →
    ∃ msg k c, Unmarshal payload = Some msg ∧
               routedType (Message.Type_ msg) ∧
               roomOf st (Client.RoomID client) !! k = Some c ∧
               e = WriteMessage (Client.Conn c) (stamp client msg).
Proof.
  intros Ht. simpl. split; [apply step_read_ok|].
  intros e. by apply (frame_effects st conn client room).
Qed.

Lemma teardown_Clients st client room :
  Clients (teardown st client room).1 room =
  delete (Client.ID client) (Clients st room).
Proof.
  rewrite teardown_state. case_decide; simpl;
    by rewrite Clients_insert, decide_True.
Qed.

Lemma teardown_effects st client room e :
  e ∈ (teardown st client room).2 →
  e = Close (Client.Conn client) ∨
  ∃ a k c, rooms st !! Client.RoomID client = Some a ∧
           Client.ID c ≠ Client.ID client ∧ Clients st a !! k = Some c ∧
           e = WriteMessage (Client.Conn c) (leaveOf client).
Proof.
  rewrite teardown_state. case_decide as HR; simpl.
  - intros ->%list_elem_of_singleton. by left.
  - intros [->|Hin]%elem_of_cons; [by left|]. right.
    unfold broadcastToRoom in Hin. simpl in Hin.
    destruct (rooms st !! Client.RoomID client) as [a|];
      [|by apply elem_of_nil in Hin].
    apply broadcastLoop_elem in Hin
      as (k & c & Hin%elem_of_map_to_list & Hne & ->).
    exists a, k, c. split; [done|]. split; [done|]. split; [|done].
    rewrite Clients_insert in Hin. case_decide as Ha.
    + subst a. apply lookup_delete_Some in Hin as [? ?]. by destruct st.
    + by destruct st.
Qed.

(** The termination of a connection removes one entry from its room's
    mapping when the mapping holds the connection's client identifier (be
    it for this connection or for one that took the identifier over), and
    none otherwise. *)
Theorem leave_member_count st conn client room :
  tasks st !! conn = Some (client, room) →
  let res := step st (ConnRead conn ReadError) in
  size (Clients res.1 room) =
  if decide (is_Some (Clients st room !! Client.ID client))
  then pred (size (Clients st room)) else size (Clients st room).
Proof.
  intros Ht. cbv zeta. rewrite (step_read_error _ _ _ _ Ht), teardown_Clients.
  case_decide as Hin.
  - by apply map_size_delete_Some.
  - apply map_size_delete_None. by apply eq_None_not_Some.
Qed.

(** *** Nothing reaches a terminated connection *)

Lemma step_effects_live st ev e conn :
  wf st → e ∈ (step st ev).2 → reaches conn e → is_Some (tasks st !! conn).
Proof.
  intros Hwf He Hreach.
  destruct ev as [method|query upgrade|conn' r].
  - by apply elem_of_nil in He.
  - rewrite step_websocket in He. simpl in He.
    destruct (decide (Get query "roomId" = "")) as [Hr|Hr].
    { rewrite handleWebSocket_reject in He by (by left).
      by apply elem_of_nil in He. }
    destruct (decide (Get query "clientId" = "")) as [Hc|Hc].
    { rewrite handleWebSocket_reject in He by (by right; left).
      by apply elem_of_nil in He. }
    destruct (decide (Get query "username" = "")) as [Hu|Hu].
    { rewrite handleWebSocket_reject in He by (by right; right).
      by apply elem_of_nil in He. }
    destruct upgrade.
    + rewrite handleWebSocket_joined in He by done. simpl in He.
      rewrite joined_notification in He.
      apply broadcastLoop_elem in He
        as (k & c & Hin%elem_of_map_to_list & Hne & ->).
      apply lookup_insert_Some in Hin as [[<- <-] | [_ Hk]];
        [by destruct Hne|].
      destruct (roomOf_member _ _ _ _ Hwf Hk) as (_ & a & _ & Htk).
      destruct Hreach as [[=] | [m [= <- _]]]. eauto.
    + rewrite handleWebSocket_failed in He by done.
      by apply elem_of_nil in He.
  - destruct (tasks st !! conn') as [[client room]|] eqn:Ht;
      [|unfold step in He; rewrite Ht in He; by apply elem_of_nil in He].
    destruct r as [|messageType payload].
    + rewrite (step_read_error _ _ _ _ Ht) in He.
      destruct (wf_task _ Hwf _ _ _ Ht) as (Hconn & _ & _).
      apply teardown_effects in He as [-> | (a & k & c & _ & _ & Hk & ->)].
      * destruct Hreach as [[= <-] | [m [=]]]. rewrite Hconn. eauto.
      * destruct (wf_member _ Hwf _ _ _ Hk) as [_ Htk].
        destruct Hreach as [[=] | [m [= <- _]]]. eauto.
    + apply (frame_effects _ _ _ _ _ _ _ Ht) in He
        as (msg & k & c & _ & _ & Hk & ->).
      destruct (roomOf_member _ _ _ _ Hwf Hk) as (_ & a & _ & Htk).
      destruct Hreach as [[=] | [m [= <- _]]]. eauto.
Qed.

Lemma step_terminated st ev conn :
  terminated st conn → terminated (step st ev).1 conn.
Proof.
  intros [Hlt Hnone]. destruct ev as [method|query upgrade|conn' r].
  - simpl. unfold handleRooms.
    destruct (String.eqb method "POST"); [done|].
    by destruct (String.eqb method "GET").
  - rewrite step_websocket. simpl.
    destruct (handleWebSocket_cases st query upgrade)
      as [-> | (_ & _ & _ & [[_ ->] | (_ & _ & ->)])]; [done| |done].
    split; simpl; [lia|]. rewrite lookup_insert_ne; [done|lia].
  - destruct (tasks st !! conn') as [[client room]|] eqn:Ht;
      [|unfold step; by rewrite Ht].
    destruct r as [|messageType payload]; [|by rewrite step_read_ok].
    rewrite (step_read_error _ _ _ _ Ht), teardown_state.
    case_decide; split; simpl; try done;
      apply lookup_delete_None; by right.
Qed.

Lemma run_terminated evs : ∀ st conn e,
  wf st → terminated st conn → e ∈ (run st evs).2 → ¬ reaches conn e.
Proof.
  induction evs as [|ev evs IH]; intros st conn e Hwf Hterm; simpl;
    [by intros ?%elem_of_nil|].
  pose proof (step_wf st ev Hwf) as Hwf1.
  pose proof (step_terminated st ev conn Hterm) as Hterm1.
  pose proof (step_effects_live st ev e conn Hwf) as Hlive.
  destruct (step st ev) as [st1 out1]. simpl in *.
  specialize (IH st1 conn e Hwf1 Hterm1).
  destruct (run st1 evs) as [st2 out2]. simpl in *.
  intros [Hin|Hin]%elem_of_app Hreach.
  - destruct (Hlive Hin Hreach) as [? Hsome]. destruct Hterm as [_ Hnone].
    congruence.
  - by apply IH.
Qed.

(** Once the read loop of a connection has ended, no later event, of this
    or any other connection or request, writes a frame to that connection
    or closes it again. *)
Theorem terminated_connection_gets_nothing st conn client room evs e :
  wf st →
  tasks st !! conn = Some (client, room) →
  e ∈ (run (step st (ConnRead conn ReadError)).1 evs).2 →
  ¬ reaches conn e.
Proof.
  intros Hwf Ht. apply run_terminated.
  - by apply step_wf.
  - destruct (wf_task _ Hwf _ _ _ Ht) as (Hconn & Hlt & _).
    rewrite (step_read_error _ _ _ _ Ht), teardown_state, Hconn.
    case_decide; split; simpl; try done; apply lookup_delete_eq.
Qed.

(** *** Leaving and coming back *)

Lemma handleWebSocket_unknown st query :
  let roomID := Get query "roomId" in
  let clientID := Get query "clientId" in
  let username := Get query "username" in
  let new := Client.mk (nextConn st) clientID roomID username in
  roomID ≠ "" → clientID ≠ "" → username ≠ "" →
  rooms st !! roomID = None →
  handleWebSocket st query true =
  (mkState (<[roomID := nextRoom st]> (rooms st))
           (<[nextRoom st := {[clientID := new]}]> (heap st))
           (<[nextConn st := (new, nextRoom st)]> (tasks st))
           (S (nextRoom st)) (S (nextConn st)),
   Upgraded (nextConn st), []).
Proof.
  intros roomID clientID username new Hr Hc Hu Hnone.
  rewrite handleWebSocket_joined by done. fold roomID clientID username.
  rewrite joined_notification.
  assert (HR : roomOf st roomID = ∅) by (unfold roomOf; by rewrite Hnone).
  unfold joined. rewrite HR, Hnone, insert_empty. fold new. simpl.
  rewrite map_to_list_singleton. simpl. by rewrite String.eqb_refl.
Qed.

(** When the only member of a room leaves, the room identifier leaves the
    registry, and a later join under the same identifier gets a newly
    allocated room, different from the old object, with the joiner as its
    only member and nobody to notify. *)
Theorem last_leave_then_join_is_fresh st conn client room query :
  let clientID := Get query "clientId" in
  let username := Get query "username" in
  let new := Client.mk (nextConn st) clientID (Client.RoomID client)
               username in
  wf st → validated st → coherent st →
  tasks st !! conn = Some (client, room) →
  Clients st room = {[Client.ID client := client]} →
  Get query "roomId" = Client.RoomID client →
  clientID ≠ "" → username ≠ "" →
  let st1 := (step st (ConnRead conn ReadError)).1 in
  let res := handleWebSocket st1 query true in
  rooms st1 !! Client.RoomID client = None ∧
  rooms res.1.1 !! Client.RoomID client = Some (nextRoom st) ∧
  nextRoom st ≠ room ∧
  roomOf res.1.1 (Client.RoomID client) = {[clientID := new]} ∧
  res.2 = [].
Proof.
  intros clientID username new Hwf Hval Hcoh Ht Hsole Hq Hc Hu. cbv zeta.
  destruct (validated_task _ Hval _ _ _ Ht) as (_ & Hrid & _).
  pose proof (coherent_task _ Hcoh _ _ _ Ht) as Hlt.
  rewrite (step_read_error _ _ _ _ Ht), teardown_state, Hsole.
  rewrite delete_singleton_eq, decide_True by done. simpl.
  set (st1 := mkState _ _ _ _ _).
  assert (Hnone : rooms st1 !! Get query "roomId" = None)
    by (rewrite Hq; apply lookup_delete_eq).
  rewrite handleWebSocket_unknown by (done || by rewrite Hq).
  rewrite Hq. fold clientID username. simpl. fold new.
  split; [apply lookup_delete_eq|]. split; [apply lookup_insert_eq|].
  split; [lia|]. split; [|done].
  unfold roomOf. simpl.
  by rewrite lookup_insert_eq, Clients_insert, decide_True.
Qed.

(** A join under a client identifier the room does not hold, followed at
    once by that connection's termination, undoes itself: the running
    goroutines are those from before; if the room had members, the
    registry and the room's mapping are restored and the members got the
    [leave] after the [join]; if it had none, the room identifier is no
    longer registered, even when an earlier room-creation request had
    registered it. *)
Theorem join_then_leave_round_trip st query :
  let roomID := Get query "roomId" in
  let clientID := Get query "clientId" in
  let username := Get query "username" in
  let new := Client.mk (nextConn st) clientID roomID username in
  wf st →
  roomID ≠ "" → clientID ≠ "" → username ≠ "" →
  roomOf st roomID !! clientID = None →
  let st1 := (handleWebSocket st query true).1.1 in
  let res := step st1 (ConnRead (nextConn st) ReadError) in
  tasks res.1 = tasks st ∧
  (roomOf st roomID ≠ ∅ →
     rooms res.1 = rooms st ∧ roomOf res.1 roomID = roomOf st roomID ∧
     res.2 ≡ₚ Close (nextConn st)
                :: deliveries (roomOf st roomID) (leaveOf new)) ∧
  (roomOf st roomID = ∅ →
     rooms res.1 = delete roomID (rooms st) ∧
     res.2 = [Close (nextConn st)]).
Proof.
  intros roomID clientID username new Hwf Hr Hc Hu Hfree. cbv zeta.
  assert ((handleWebSocket st query true).1.1 =
          joined st roomID clientID username) as ->
    by (by rewrite handleWebSocket_joined).
  remember (default (nextRoom st) (rooms st !! roomID)) as room eqn:Hroom.
  remember (joined st roomID clientID username) as sj eqn:Hsj.
  assert (Hrs : rooms sj = <[roomID := room]> (rooms st))
    by (by rewrite Hsj, Hroom).
  assert (Hts : tasks sj = <[nextConn st := (new, room)]> (tasks st))
    by (by rewrite Hsj, Hroom).
  assert (Hcl : Clients sj room = <[clientID := new]> (roomOf st roomID)).
  { rewrite Hsj, Hroom. unfold joined.
    by rewrite Clients_insert, decide_True. }
  assert (Htask : tasks sj !! nextConn st = Some (new, room))
    by (by rewrite Hts, lookup_insert_eq).
  rewrite (step_read_error _ _ _ _ Htask), teardown_state.
  rewrite Hcl, Hrs, Hts. simpl Client.ID. simpl Client.Conn.
  simpl Client.RoomID.
  rewrite !delete_insert_eq, (delete_id _ _ Hfree).
  assert (Hfresh : tasks st !! nextConn st = None).
  { destruct (tasks st !! nextConn st) as [[c a]|] eqn:E; [|done].
    destruct (wf_task _ Hwf _ _ _ E) as (_ & ? & _). lia. }
  rewrite (delete_id _ _ Hfresh).
  case_decide as HR; simpl.
  - split; [done|]. split; [done|]. by intros _.
  - split; [done|]. split; [|done]. intros _.
    assert (Hreg : rooms st !! roomID = Some room).
    { unfold roomOf in HR. rewrite Hroom.
      by destruct (rooms st !! roomID). }
    rewrite (insert_id _ _ _ Hreg). split; [done|].
    unfold roomOf at 1, broadcastToRoom. simpl. rewrite Hreg.
    rewrite Clients_insert, decide_True by done. split; [done|].
    constructor.
    rewrite (broadcastLoop_members (roomOf st roomID) (leaveOf new)).
    + simpl. by rewrite (delete_id _ _ Hfree).
    + intros k c Hk. by destruct (roomOf_member _ _ _ _ Hwf Hk).
Qed.

(** ** Further properties: what every reachable state satisfies *)

Lemma validated_init : validated init.
Proof. split; intros *; simpl; by rewrite lookup_empty. Qed.

Lemma coherent_init : coherent init.
Proof. split; intros *; simpl; by rewrite lookup_empty. Qed.

Lemma validated_fresh_room st roomID :
  validated st → roomID ≠ "" →
  validated (mkState (<[roomID := nextRoom st]> (rooms st))
                     (<[nextRoom st := ∅]> (heap st))
                     (tasks st) (S (nextRoom st)) (nextConn st)).
Proof.
  intros [Hr Ht] Hne. split; simpl; [|done].
  intros rid a [[<- _] | [_ Hl]]%lookup_insert_Some; [done|].
  by apply (Hr rid a).
Qed.

Lemma coherent_fresh_room st roomID :
  coherent st →
  coherent (mkState (<[roomID := nextRoom st]> (rooms st))
                    (<[nextRoom st := ∅]> (heap st))
                    (tasks st) (S (nextRoom st)) (nextConn st)).
Proof.
  intros [Ha Ht Hi Hn].
  assert (Hfresh : ∀ rid, rooms st !! rid ≠ Some (nextRoom st)).
  { intros rid Hl. apply Ha in Hl. lia. }
  split; simpl.
  - intros rid a [[_ <-] | [_ Hl]]%lookup_insert_Some; [lia|].
    apply Ha in Hl. lia.
  - intros n c a Hl. apply Ht in Hl. lia.
  - intros r1 r2 a [[<- <-] | [? H1]]%lookup_insert_Some
                   [[<- E2] | [? H2]]%lookup_insert_Some; try done.
    + by destruct (Hfresh r2).
    + subst a. by destruct (Hfresh r1).
    + by apply (Hi r1 r2 a).
  - intros n c a rid Hl [[_ <-] | [_ Hreg]]%lookup_insert_Some.
    + apply Ht in Hl. lia.
    + by apply (Hn n c a).
Qed.

Lemma validated_joined st roomID clientID username :
  validated st → roomID ≠ "" → clientID ≠ "" → username ≠ "" →
  validated (joined st roomID clientID username).
Proof.
  intros [Hr Ht] ? ? ?. split; simpl.
  - intros rid a [[<- _] | [_ Hl]]%lookup_insert_Some; [done|].
    by apply (Hr rid a).
  - intros n c a [[_ [= <- _]] | [_ Hl]]%lookup_insert_Some; [done|].
    by apply (Ht n c a).
Qed.

Lemma coherent_joined st roomID clientID username :
  coherent st → coherent (joined st roomID clientID username).
Proof.
  intros Hcoh. pose proof Hcoh as [Ha Ht Hi Hn]. unfold joined.
  set (client := Client.mk _ _ _ _).
  destruct (rooms st !! roomID) as [room|] eqn:E; simpl.
  - rewrite (insert_id _ _ _ E). split; simpl.
    + done.
    + intros n c a [[_ [= _ <-]] | [_ Hl]]%lookup_insert_Some;
        [by apply (Ha roomID)|by apply (Ht n c)].
    + done.
    + intros n c a rid [[_ [= <- <-]] | [_ Hl]]%lookup_insert_Some Hreg.
      * by apply (Hi rid roomID room).
      * by apply (Hn n c a).
  - assert (Hfresh : ∀ rid, rooms st !! rid ≠ Some (nextRoom st)).
    { intros rid Hl. apply Ha in Hl. lia. }
    split; simpl.
    + intros rid a [[_ <-] | [_ Hl]]%lookup_insert_Some; [lia|].
      apply Ha in Hl. lia.
    + intros n c a [[_ [= _ <-]] | [_ Hl]]%lookup_insert_Some; [lia|].
      apply Ht in Hl. lia.
    + intros r1 r2 a [[<- <-] | [? H1]]%lookup_insert_Some
                     [[<- E2] | [? H2]]%lookup_insert_Some; try done.
      * by destruct (Hfresh r2).
      * subst a. by destruct (Hfresh r1).
      * by apply (Hi r1 r2 a).
    + intros n c a rid [[_ [= <- <-]] | [_ Hl]]%lookup_insert_Some
                       [[<- Hd] | [_ Hreg]]%lookup_insert_Some.
      * done.
      * by destruct (Hfresh rid).
      * apply Ht in Hl. lia.
      * by apply (Hn n c a).
Qed.

Lemma validated_teardown st client room :
  validated st → validated (teardown st client room).1.
Proof.
  intros [Hr Ht]. rewrite teardown_state.
  assert (∀ n c a, delete (Client.Conn client) (tasks st) !! n = Some (c, a) →
            Client.ID c ≠ "" ∧ Client.RoomID c ≠ "" ∧ Client.Username c ≠ "")
    as Ht'.
  { intros n c a [_ Hl]%lookup_delete_Some. by apply (Ht n c a). }
  case_decide; split; simpl; try done.
  intros rid a [_ Hl]%lookup_delete_Some. by apply (Hr rid a).
Qed.

Lemma coherent_teardown st client room :
  coherent st → coherent (teardown st client room).1.
Proof.
  intros [Ha Ht Hi Hn]. rewrite teardown_state.
  assert (∀ n c a, delete (Client.Conn client) (tasks st) !! n = Some (c, a) →
            a < nextRoom st) as Ht'.
  { intros n c a [_ Hl]%lookup_delete_Some. by apply (Ht n c a). }
  case_decide; split; simpl; try done.
  - intros rid a [_ Hl]%lookup_delete_Some. by apply (Ha rid).
  - intros r1 r2 a [_ H1]%lookup_delete_Some [_ H2]%lookup_delete_Some.
    by apply (Hi r1 r2 a).
  - intros n c a rid [_ Hl]%lookup_delete_Some [_ Hreg]%lookup_delete_Some.
    by apply (Hn n c a).
  - intros n c a rid [_ Hl]%lookup_delete_Some Hreg. by apply (Hn n c a).
Qed.

Lemma generateRoomID_nonempty : generateRoomID ≠ "".
Proof. by vm_compute. Qed.

Lemma step_validated st ev : validated st → validated (step st ev).1.
Proof.
  intros Hval. destruct ev as [method|query upgrade|conn r].
  - simpl. unfold handleRooms.
    destruct (String.eqb method "POST"); simpl.
    + apply validated_fresh_room; [done|apply generateRoomID_nonempty].
    + by destruct (String.eqb method "GET").
  - rewrite step_websocket. simpl.
    destruct (handleWebSocket_cases st query upgrade)
      as [-> | (? & ? & ? & [[_ ->] | (_ & _ & ->)])]; [done| |].
    + by apply validated_joined.
    + by apply validated_fresh_room.
  - destruct (tasks st !! conn) as [[client room]|] eqn:Ht;
      [|unfold step; by rewrite Ht].
    destruct r as [|messageType payload]; [|by rewrite step_read_ok].
    rewrite (step_read_error _ _ _ _ Ht). by apply validated_teardown.
Qed.

Lemma step_coherent st ev : coherent st → coherent (step st ev).1.
Proof.
  intros Hcoh. destruct ev as [method|query upgrade|conn r].
  - simpl. unfold handleRooms.
    destruct (String.eqb method "POST"); simpl.
    + by apply coherent_fresh_room.
    + by destruct (String.eqb method "GET").
  - rewrite step_websocket. simpl.
    destruct (handleWebSocket_cases st query upgrade)
      as [-> | (? & ? & ? & [[_ ->] | (_ & _ & ->)])]; [done| |].
    + by apply coherent_joined.
    + by apply coherent_fresh_room.
  - destruct (tasks st !! conn) as [[client room]|] eqn:Ht;
      [|unfold step; by rewrite Ht].
    destruct r as [|messageType payload]; [|by rewrite step_read_ok].
    rewrite (step_read_error _ _ _ _ Ht). by apply coherent_teardown.
Qed.

Lemma run_invariants evs : ∀ st,
  wf st → validated st → coherent st →
  wf (run st evs).1 ∧ validated (run st evs).1 ∧ coherent (run st evs).1.
Proof.
  induction evs as [|ev evs IH]; intros st Hwf Hval Hcoh; simpl; [done|].
  pose proof (step_wf st ev Hwf) as Hwf1.
  pose proof (step_validated st ev Hval) as Hval1.
  pose proof (step_coherent st ev Hcoh) as Hcoh1.
  destruct (step st ev) as [st1 out1]. simpl in *.
  specialize (IH st1 Hwf1 Hval1 Hcoh1).
  by destruct (run st1 evs) as [st2 out2].
Qed.

(** Whatever requests and reads the server has seen since it started, its
    state is well formed: every member entry is filed under its client's
    own identifier and has a running goroutine; no room identifier, client
    identifier or user name in use is empty; and the registry maps
    distinct identifiers to distinct, allocated room objects, each named
    like the connections that run on it. *)
Theorem reachable_invariants evs :
  wf (run init evs).1 ∧ validated (run init evs).1 ∧
  coherent (run init evs).1.
Proof.
  apply run_invariants; [apply wf_init|apply validated_init|apply coherent_init].
Qed.

(** *** Rooms do not interact *)

Lemma roomOf_frame st st' roomID :
  rooms st' !! roomID = rooms st !! roomID →
  (∀ a, rooms st !! roomID = Some a → Clients st' a = Clients st a) →
  roomOf st' roomID = roomOf st roomID.
Proof.
  intros Hr Hc. unfold roomOf. rewrite Hr.
  destruct (rooms st !! roomID) as [a|]; [by apply Hc|done].
Qed.

Lemma roomOf_fresh_room st roomID roomID' :
  coherent st → roomID ≠ roomID' →
  roomOf (mkState (<[roomID := nextRoom st]> (rooms st))
                  (<[nextRoom st := ∅]> (heap st))
                  (tasks st) (S (nextRoom st)) (nextConn st)) roomID' =
  roomOf st roomID'.
Proof.
  intros Hcoh Hne. apply roomOf_frame; simpl.
  - by rewrite lookup_insert_ne.
  - intros a Ha. rewrite Clients_insert, decide_False; [by destruct st|].
    apply (coherent_alloc _ Hcoh) in Ha. lia.
Qed.

Lemma roomOf_joined_other st roomID clientID username roomID' :
  coherent st → roomID ≠ roomID' →
  roomOf (joined st roomID clientID username) roomID' = roomOf st roomID'.
Proof.
  intros Hcoh Hne. apply roomOf_frame; unfold joined; simpl.
  - by rewrite lookup_insert_ne.
  - intros a Ha. rewrite Clients_insert, decide_False; [by destruct st|].
    destruct (rooms st !! roomID) as [room|] eqn:E; simpl.
    + intros <-. by destruct Hne; apply (coherent_inj _ Hcoh _ _ room).
    + apply (coherent_alloc _ Hcoh) in Ha. lia.
Qed.

Lemma roomOf_teardown_other st n client room roomID' :
  coherent st → tasks st !! n = Some (client, room) →
  Client.RoomID client ≠ roomID' →
  roomOf (teardown st client room).1 roomID' = roomOf st roomID'.
Proof.
  intros Hcoh Ht Hne. apply roomOf_frame.
  - rewrite teardown_state. case_decide; simpl; [|done].
    by rewrite lookup_delete_ne.
  - intros a Ha.
    assert (a ≠ room) as Hroom.
    { intros ->. destruct Hne. symmetry.
      by apply (coherent_name _ Hcoh _ _ _ _ Ht). }
    rewrite teardown_state. case_decide; simpl;
      rewrite Clients_insert, decide_False by done; by destruct st.
Qed.

Lemma members_apart st r1 r2 k1 k2 c1 c2 :
  wf st → coherent st → r1 ≠ r2 →
  roomOf st r1 !! k1 = Some c1 → roomOf st r2 !! k2 = Some c2 →
  Client.Conn c1 ≠ Client.Conn c2.
Proof.
  intros Hwf Hcoh Hne H1 H2 Hconn.
  destruct (roomOf_member _ _ _ _ Hwf H1) as (_ & a1 & Hr1 & Ht1).
  destruct (roomOf_member _ _ _ _ Hwf H2) as (_ & a2 & Hr2 & Ht2).
  rewrite Hconn, Ht2 in Ht1. injection Ht1 as -> ->.
  by apply Hne, (coherent_inj _ Hcoh _ _ a1).
Qed.

(** An event leaves every room other than its own alone: the member
    mapping registered under any other identifier is unchanged, and no
    member of such a room is written to or closed. *)
Theorem rooms_do_not_interact st ev roomID :
  wf st → coherent st →
  eventRoom st ev ≠ Some roomID →
  roomOf (step st ev).1 roomID = roomOf st roomID ∧
  ∀ e k c, e ∈ (step st ev).2 → roomOf st roomID !! k = Some c →
           ¬ reaches (Client.Conn c) e.
Proof.
  intros Hwf Hcoh Hev.
  destruct ev as [method|query upgrade|conn r].
  - split; [|by intros e k c ?%elem_of_nil].
    simpl in *. unfold handleRooms.
    destruct (String.eqb method "POST"); simpl.
    + apply roomOf_fresh_room; [done|congruence].
    + by destruct (String.eqb method "GET").
  - assert (Hne : Get query "roomId" ≠ roomID) by (simpl in Hev; congruence).
    rewrite step_websocket. simpl fst. simpl snd.
    destruct (handleWebSocket_cases st query upgrade)
      as [Hst | (Hr & Hc & Hu & [[-> Hst] | (-> & _ & Hst)])].
    + rewrite Hst. split; [done|]. intros e k c He Hk Hreach.
      assert (is_Some (tasks st !! Client.Conn c)) as _
        by (destruct (roomOf_member _ _ _ _ Hwf Hk) as (_ & ? & _ & ?); eauto).
      destruct upgrade.
      * destruct (decide (Get query "roomId" = "")) as [E1|E1];
          [rewrite handleWebSocket_reject in He by (by left);
           by apply elem_of_nil in He|].
        destruct (decide (Get query "clientId" = "")) as [E2|E2];
          [rewrite handleWebSocket_reject in He by (by right; left);
           by apply elem_of_nil in He|].
        destruct (decide (Get query "username" = "")) as [E3|E3];
          [rewrite handleWebSocket_reject in He by (by right; right);
           by apply elem_of_nil in He|].
        rewrite handleWebSocket_joined in Hst by done. simpl in Hst.
        (* a successful join always starts a goroutine *)
        apply (f_equal (λ s, tasks s !! nextConn st)) in Hst.
        unfold joined in Hst. simpl in Hst. rewrite lookup_insert_eq in Hst.
        symmetry in Hst. destruct (wf_task _ Hwf _ _ _ Hst) as (_ & ? & _).
        lia.
      * destruct (decide (Get query "roomId" = "")) as [E1|E1];
          [rewrite handleWebSocket_reject in He by (by left);
           by apply elem_of_nil in He|].
        destruct (decide (Get query "clientId" = "")) as [E2|E2];
          [rewrite handleWebSocket_reject in He by (by right; left);
           by apply elem_of_nil in He|].
        destruct (decide (Get query "username" = "")) as [E3|E3];
          [rewrite handleWebSocket_reject in He by (by right; right);
           by apply elem_of_nil in He|].
        rewrite handleWebSocket_failed in He by done.
        by apply elem_of_nil in He.
    + rewrite Hst. split; [by apply roomOf_joined_other|].
      intros e k c He Hk Hreach.
      rewrite handleWebSocket_joined in He by done. simpl in He.
      rewrite joined_notification in He.
      apply broadcastLoop_elem in He
        as (k' & c' & Hin%elem_of_map_to_list & Hid & ->).
      apply lookup_insert_Some in Hin as [[<- <-] | [_ Hk']];
        [by destruct Hid|].
      destruct Hreach as [[=] | [m [= Hconn _]]].
      by apply (members_apart st (Get query "roomId") roomID k' k c' c).
    + rewrite Hst. split; [by apply roomOf_fresh_room|].
      intros e k c He. rewrite handleWebSocket_failed in He by done.
      by apply elem_of_nil in He.
  - simpl in Hev.
    destruct (tasks st !! conn) as [[client room]|] eqn:Ht;
      [|unfold step; rewrite Ht; split; [done|by intros e k c ?%elem_of_nil]].
    assert (Hne : Client.RoomID client ≠ roomID) by congruence.
    destruct r as [|messageType payload].
    + rewrite (step_read_error _ _ _ _ Ht).
      split; [by apply (roomOf_teardown_other st conn)|].
      intros e k c He Hk Hreach.
      destruct (wf_task _ Hwf _ _ _ Ht) as (Hconn & _ & _).
      apply teardown_effects in He as [-> | (a & k' & c' & Hr & _ & Hk' & ->)].
      * destruct Hreach as [[= Hc] | [m [=]]].
        destruct (roomOf_member _ _ _ _ Hwf Hk) as (_ & a & Hreg & Htk).
        rewrite <- Hc, Hconn, Ht in Htk. injection Htk as <- <-.
        by apply Hne; symmetry; apply (coherent_name _ Hcoh _ _ _ _ Ht).
      * destruct Hreach as [[=] | [m [= Hc _]]].
        apply (members_apart st (Client.RoomID client) roomID k' k c' c);
          try done.
        unfold roomOf. by rewrite Hr.
    + split; [by rewrite step_read_ok|]. intros e k c He Hk Hreach.
      apply (frame_effects _ _ _ _ _ _ _ Ht) in He
        as (msg & k' & c' & _ & _ & Hk' & ->).
      destruct Hreach as [[=] | [m [= Hc _]]].
      by apply (members_apart st (Client.RoomID client) roomID k' k c' c).
Qed.

(** *** Client identifiers that collide *)

(** The deferred removal goes by client identifier.  When a connection
    whose identifier was taken over by a later join terminates, it is the
    later connection's entry that is deleted: that connection keeps
    running, but it is no longer a member of any room. *)
Theorem evicted_termination_removes_successor st conn client room other :
  wf st →
  tasks st !! conn = Some (client, room) →
  Clients st room !! Client.ID client = Some other →
  other ≠ client →
  let res := step st (ConnRead conn ReadError) in
  Clients res.1 room !! Client.ID client = None ∧
  tasks res.1 !! Client.Conn other = Some (other, room) ∧
  ∀ a k, Clients res.1 a !! k ≠ Some other.
Proof.
  intros Hwf Ht Hother Hne. cbv zeta.
  destruct (wf_task _ Hwf _ _ _ Ht) as (Hconn & _ & _).
  destruct (wf_member _ Hwf _ _ _ Hother) as [Hid Hto].
  assert (Hconns : Client.Conn other ≠ Client.Conn client).
  { intros E. rewrite E, Hconn, Ht in Hto. by injection Hto as ->. }
  rewrite (step_read_error _ _ _ _ Ht). split.
  { rewrite teardown_Clients. apply lookup_delete_eq. }
  rewrite teardown_state. 
  assert (Hgone : ∀ rs ts nr nc a k,
            Clients (mkState rs
              (<[room := delete (Client.ID client) (Clients st room)]> (heap st))
              ts nr nc) a !! k ≠ Some other).
  { intros rs ts nr nc a k. rewrite Clients_insert. case_decide as Ha.
    - subst a. intros [Hk Hin]%lookup_delete_Some.
      destruct (wf_member _ Hwf _ _ _ Hin) as [Hid' _]. congruence.
    - intros Hin.
      assert (Clients st a !! k = Some other) as Hin' by (by destruct st).
      destruct (wf_member _ Hwf _ _ _ Hin') as [_ Hto'].
      rewrite Hto in Hto'. by injection Hto'. }
  case_decide; simpl; (split; [by rewrite lookup_delete_ne|apply Hgone]).
Qed.

(** Along a plain history every running connection is where routing looks
    for it: its room is the one registered under its room identifier and
    its client is that room's entry under its client identifier. *)
Theorem plain_history_connections_are_members evs conn client room :
  plainHistory init evs = true →
  tasks (run init evs).1 !! conn = Some (client, room) →
  rooms (run init evs).1 !! Client.RoomID client = Some room ∧
  Clients (run init evs).1 room !! Client.ID client = Some client.
Proof.
  intros Hplain Ht.
  destruct (plain_run_tidy evs init wf_init tidy_init Hplain) as [_ Htidy].
  split.
  - by apply (tidy_task_room _ Htidy conn).
  - by apply (tidy_task_member _ Htidy conn).
Qed.

End Relay.

(** ** The theorems at concrete inputs *)

(** The state after [a] and [b] joined [r]. *)
Lemma sampleRoom_state :
  let st := (run sampleUnmarshal init sampleJoins).1 in
  rooms st !! "r" = Some 0 ∧
  Clients st 0 = <["a" := clientA]> (<["b" := clientB]> ∅) ∧
  tasks st !! 0 = Some (clientA, 0) ∧ tasks st !! 1 = Some (clientB, 0).
Proof. by vm_compute. Qed.

(** C1, as stated, fails: after one room-creation request the registry
    holds a room whose member mapping is empty. *)
Lemma created_room_is_registered_empty :
  let st := (run sampleUnmarshal init [HttpRooms "POST"]).1 in
  rooms st !! "room-abcdefgh" = Some 0 ∧ size (Clients st 0) = 0 ∧
  ¬ registryInvariant st.
Proof.
  split; [by vm_compute|]. split; [by vm_compute|].
  intros H. destruct (H 0) as [Hreg _].
  assert (0 < size (Clients (run sampleUnmarshal init [HttpRooms "POST"]).1 0))
    as Hlt.
  { apply Hreg. exists "room-abcdefgh". by vm_compute. }
  vm_compute in Hlt. lia.
Qed.

Lemma plain_history_registry_invariant_witness :
  let evs := (sampleJoins ++
              [ConnRead 0 (ReadOk 1 "chat"); ConnRead 0 ReadError;
               ConnRead 1 ReadError])%list in
  plainHistory sampleUnmarshal init evs = true ∧
  registryInvariant (run sampleUnmarshal init evs).1.
Proof.
  split; [by vm_compute|].
  apply plain_history_registry_invariant. by vm_compute.
Defined.

(** Why the amended C1 leaves failed upgrades and colliding client
    identifiers out: a failed upgrade on an unknown room leaves the empty
    room it created in the registry, and a connection evicted by a
    collision later removes from the registry a room that has a member. *)
Example failed_upgrade_leaves_empty_room :
  let st := (run sampleUnmarshal init
               [HttpWebSocket (sampleQuery "r" "a" "A") false]).1 in
  rooms st !! "r" = Some 0 ∧ Clients st 0 = ∅.
Proof. by vm_compute. Qed.

Example evicted_connection_unregisters_live_room :
  let st := (run sampleUnmarshal init
               [HttpWebSocket (sampleQuery "r" "x" "first") true;
                HttpWebSocket (sampleQuery "r" "x" "second") true;
                ConnRead 0 ReadError;
                HttpWebSocket (sampleQuery "r" "y" "third") true;
                ConnRead 1 ReadError]).1 in
  rooms st = ∅ ∧ Clients st 1 = {["y" := Client.mk 2 "y" "r" "third"]}.
Proof. by vm_compute. Qed.

Lemma origin_is_stamped_witness :
  let st := (run sampleUnmarshal init sampleJoins).1 in
  tasks st !! 0 = Some (clientA, 0) ∧
  sameButOrigin (Message.mk "chat" "b" "" "elsewhere" "" "" "")
                (Message.mk "chat" "" "" "" "" "" "") ∧
  step sampleUnmarshal st (ConnRead 0 (ReadOk 1 "forged chat")) =
  (st, [WriteMessage 1 (Message.mk "chat" "a" "" "r" "" "" "")]).
Proof.
  split; [by vm_compute|]. split; [by vm_compute|].
  refine (eq_trans (proj1 (proj2
    (origin_is_stamped sampleUnmarshal _ 0 clientA 0 1 "forged chat" "chat"
       (Message.mk "chat" "b" "" "elsewhere" "" "" "")
       (Message.mk "chat" "" "" "" "" "" "") _ _ _ _))) _);
    by vm_compute.
Defined.









Lemma handleWebSocket_rejects_missing_parameter_witness :
  missingOrEmpty (sampleQuery "r" "" "A") "clientId" ∧
  handleWebSocket init (sampleQuery "r" "" "A") true =
  (init, HttpError "Missing required parameters" 400, []).
Proof.
  assert (H : missingOrEmpty (sampleQuery "r" "" "A") "clientId")
    by (by vm_compute).
  split; [done|].
  apply handleWebSocket_rejects_missing_parameter. right; left. exact H.
Defined.

Lemma skipped_frame_keeps_connection_witness :
  let st := (run sampleUnmarshal init sampleJoins).1 in
  tasks st !! 0 = Some (clientA, 0) ∧
  sampleUnmarshal "{not json" = None ∧
  step sampleUnmarshal st (ConnRead 0 (ReadOk 1 "{not json")) = (st, []).
Proof.
  split; [by vm_compute|]. split; [by vm_compute|].
  refine (proj1 (proj2
    (skipped_frame_keeps_connection sampleUnmarshal _ 0 clientA 0 1
       "{not json" _ _))).
  - by vm_compute.
  - right. by vm_compute.
Defined.

Lemma join_overwrites_colliding_entry_witness :
  let st := (run sampleUnmarshal init sampleJoins).1 in
  let query := sampleQuery "r" "a" "impostor" in
  wf st ∧ rooms st !! "r" = Some 0 ∧ Clients st 0 !! "a" = Some clientA ∧
  Clients (handleWebSocket st query true).1.1 0 =
  <["a" := Client.mk 2 "a" "r" "impostor"]> (Clients st 0).
Proof.
  assert (Hwf : wf (run sampleUnmarshal init sampleJoins).1)
    by apply run_wf, wf_init.
  split; [done|]. split; [by vm_compute|]. split; [by vm_compute|].
  refine (proj1 (proj2 (proj2
    (join_overwrites_colliding_entry _ (sampleQuery "r" "a" "impostor") 0
       clientA Hwf _ _ _ _)))); by vm_compute.
Defined.

(** ** The further properties at concrete inputs *)

Lemma sample_invariants evs :
  wf (run sampleUnmarshal init evs).1 ∧
  validated (run sampleUnmarshal init evs).1 ∧
  coherent (run sampleUnmarshal init evs).1.
Proof.
  apply run_invariants; [apply wf_init|apply validated_init|apply coherent_init].
Qed.

Lemma randomString_cycles_through_charset_witness :
  3 < 8 ∧
  String.get 3 (randomString 8) =
  String.get (3 mod String.length charset) charset.
Proof.
  assert (H : 3 < 8) by lia. split; [exact H|].
  exact (proj2 (randomString_cycles_through_charset 8 3 H)).
Defined.

Lemma handleRooms_other_methods_witness :
  "post" ≠ "POST" ∧ (handleRooms init "post").1 = init.
Proof.
  assert (H : "post" ≠ "POST") by (by vm_compute). split; [exact H|].
  exact (proj1 (handleRooms_other_methods init "post" H)).
Defined.

Lemma join_unknown_room_creates_it_witness :
  rooms init !! "r" = None ∧
  (handleWebSocket init (sampleQuery "r" "a" "A") true).2 = [].
Proof.
  split; [by vm_compute|].
  refine (proj1 (proj2
    (join_unknown_room_creates_it init (sampleQuery "r" "a" "A") _ _ _ _)));
    by vm_compute.
Defined.

Lemma created_room_is_joined_witness :
  let query := sampleQuery "room-abcdefgh" "a" "A" in
  Get query "roomId" = generateRoomID ∧
  nextRoom (handleWebSocket (handleRooms init "POST").1 query true).1.1 =
  nextRoom (handleRooms init "POST").1.
Proof.
  split; [by vm_compute|].
  refine (proj1 (proj2 (proj2 (proj2
    (created_room_is_joined init (sampleQuery "room-abcdefgh" "a" "A")
       _ _ _))))); by vm_compute.
Defined.

Lemma join_notifies_other_members_witness :
  let st := (run sampleUnmarshal init sampleJoins).1 in
  let query := sampleQuery "r" "c" "C" in
  wf st ∧
  (handleWebSocket st query true).2 ≡ₚ
  deliveries (delete "c" (roomOf st "r")) (joinOf (Client.mk 2 "c" "r" "C")).
Proof.
  destruct (sample_invariants sampleJoins) as (Hwf & _ & _).
  split; [done|].
  refine (proj1 (join_notifies_other_members _ (sampleQuery "r" "c" "C")
                   Hwf _ _ _)); by vm_compute.
Defined.

Lemma failed_upgrade_creates_no_connection_witness :
  Get (sampleQuery "r" "a" "A") "roomId" ≠ "" ∧
  tasks (handleWebSocket init (sampleQuery "r" "a" "A") false).1.1 =
  tasks init.
Proof.
  assert (H : Get (sampleQuery "r" "a" "A") "roomId" ≠ "") by (by vm_compute).
  split; [exact H|].
  refine (proj1 (proj2 (proj2
    (failed_upgrade_creates_no_connection init (sampleQuery "r" "a" "A")
       H _ _)))); by vm_compute.
Defined.

Lemma join_member_count_witness :
  let st := (run sampleUnmarshal init sampleJoins).1 in
  let query := sampleQuery "r" "a" "impostor" in
  Get query "clientId" ≠ "" ∧
  size (roomOf (handleWebSocket st query true).1.1 "r") =
  if decide (is_Some (roomOf st "r" !! "a"))
  then size (roomOf st "r") else S (size (roomOf st "r")).
Proof.
  assert (H : Get (sampleQuery "r" "a" "impostor") "clientId" ≠ "")
    by (by vm_compute).
  split; [exact H|].
  refine (join_member_count _ (sampleQuery "r" "a" "impostor") _ H _);
    by vm_compute.
Defined.

Lemma frames_are_relayed_within_room_witness :
  let st := (run sampleUnmarshal init sampleJoins).1 in
  tasks st !! 0 = Some (clientA, 0) ∧
  (step sampleUnmarshal st (ConnRead 0 (ReadOk 1 "offer:b"))).1 = st.
Proof.
  assert (H : tasks (run sampleUnmarshal init sampleJoins).1 !! 0 =
              Some (clientA, 0)) by (by vm_compute).
  split; [exact H|].
  exact (proj1 (frames_are_relayed_within_room sampleUnmarshal _ 0 clientA 0
                  1 "offer:b" H)).
Defined.

Lemma leave_member_count_witness :
  let st := (run sampleUnmarshal init sampleJoins).1 in
  tasks st !! 0 = Some (clientA, 0) ∧
  size (Clients (step sampleUnmarshal st (ConnRead 0 ReadError)).1 0) =
  if decide (is_Some (Clients st 0 !! "a"))
  then pred (size (Clients st 0)) else size (Clients st 0).
Proof.
  assert (H : tasks (run sampleUnmarshal init sampleJoins).1 !! 0 =
              Some (clientA, 0)) by (by vm_compute).
  split; [exact H|].
  exact (leave_member_count sampleUnmarshal _ 0 clientA 0 H).
Defined.

Lemma terminated_connection_gets_nothing_witness :
  let st := (run sampleUnmarshal init sampleJoins).1 in
  let st1 := (step sampleUnmarshal st (ConnRead 0 ReadError)).1 in
  let evs := [HttpWebSocket (sampleQuery "r" "c" "C") true] in
  let e := WriteMessage 1 (Message.mk "join" "c" "" "r" "C" "" "") in
  wf st ∧ tasks st !! 0 = Some (clientA, 0) ∧
  e ∈ (run sampleUnmarshal st1 evs).2 ∧ ¬ reaches 0 e.
Proof.
  destruct (sample_invariants sampleJoins) as (Hwf & _ & _).
  assert (Ht : tasks (run sampleUnmarshal init sampleJoins).1 !! 0 =
               Some (clientA, 0)) by (by vm_compute).
  assert (He : WriteMessage 1 (Message.mk "join" "c" "" "r" "C" "" "") ∈
               (run sampleUnmarshal
                  (step sampleUnmarshal (run sampleUnmarshal init sampleJoins).1
                     (ConnRead 0 ReadError)).1
                  [HttpWebSocket (sampleQuery "r" "c" "C") true]).2).
  { vm_compute. constructor. }
  split; [done|]. split; [exact Ht|]. split; [exact He|].
  exact (terminated_connection_gets_nothing sampleUnmarshal _ 0 clientA 0
           _ _ Hwf Ht He).
Defined.

Lemma last_leave_then_join_is_fresh_witness :
  let st := (run sampleUnmarshal init
               [HttpWebSocket (sampleQuery "r" "a" "A") true]).1 in
  let st1 := (step sampleUnmarshal st (ConnRead 0 ReadError)).1 in
  tasks st !! 0 = Some (clientA, 0) ∧
  Clients st 0 = {["a" := clientA]} ∧
  rooms st1 !! "r" = None.
Proof.
  destruct (sample_invariants [HttpWebSocket (sampleQuery "r" "a" "A") true])
    as (Hwf & Hval & Hcoh).
  split; [by vm_compute|]. split; [by vm_compute|].
  refine (proj1 (last_leave_then_join_is_fresh sampleUnmarshal _ 0 clientA 0
                   (sampleQuery "r" "b" "B") Hwf Hval Hcoh _ _ _ _ _));
    by vm_compute.
Defined.

Lemma join_then_leave_round_trip_witness :
  let st := (run sampleUnmarshal init sampleJoins).1 in
  let query := sampleQuery "r" "c" "C" in
  let st1 := (handleWebSocket st query true).1.1 in
  wf st ∧ roomOf st "r" !! "c" = None ∧
  tasks (step sampleUnmarshal st1 (ConnRead 2 ReadError)).1 = tasks st.
Proof.
  destruct (sample_invariants sampleJoins) as (Hwf & _ & _).
  split; [done|]. split; [by vm_compute|].
  refine (proj1 (join_then_leave_round_trip sampleUnmarshal _
                   (sampleQuery "r" "c" "C") Hwf _ _ _ _)); by vm_compute.
Defined.

Lemma rooms_do_not_interact_witness :
  let st := (run sampleUnmarshal init sampleTwoRooms).1 in
  let ev := ConnRead 0 (ReadOk 1 "chat") in
  wf st ∧ coherent st ∧ eventRoom st ev ≠ Some "s" ∧
  roomOf (step sampleUnmarshal st ev).1 "s" = roomOf st "s".
Proof.
  destruct (sample_invariants sampleTwoRooms) as (Hwf & _ & Hcoh).
  assert (H : eventRoom (run sampleUnmarshal init sampleTwoRooms).1
                (ConnRead 0 (ReadOk 1 "chat")) ≠ Some "s") by (by vm_compute).
  split; [done|]. split; [done|]. split; [exact H|].
  exact (proj1 (rooms_do_not_interact sampleUnmarshal _
                  (ConnRead 0 (ReadOk 1 "chat")) "s" Hwf Hcoh H)).
Defined.

Lemma evicted_termination_removes_successor_witness :
  let st := (run sampleUnmarshal init sampleCollision).1 in
  let first := Client.mk 0 "x" "r" "first" in
  let second := Client.mk 1 "x" "r" "second" in
  wf st ∧ tasks st !! 0 = Some (first, 0) ∧
  Clients st 0 !! "x" = Some second ∧ second ≠ first ∧
  tasks (step sampleUnmarshal st (ConnRead 0 ReadError)).1 !! 1 =
  Some (second, 0).
Proof.
  destruct (sample_invariants sampleCollision) as (Hwf & _ & _).
  split; [done|]. split; [by vm_compute|]. split; [by vm_compute|].
  split; [by vm_compute|].
  refine (proj1 (proj2
    (evicted_termination_removes_successor sampleUnmarshal _ 0
       (Client.mk 0 "x" "r" "first") 0 (Client.mk 1 "x" "r" "second")
       Hwf _ _ _))); by vm_compute.
Defined.

Lemma plain_history_connections_are_members_witness :
  let st := (run sampleUnmarshal init sampleJoins).1 in
  plainHistory sampleUnmarshal init sampleJoins = true ∧
  tasks st !! 1 = Some (clientB, 0) ∧
  Clients st 0 !! "b" = Some clientB.
Proof.
  split; [by vm_compute|]. split; [by vm_compute|].
  refine (proj2 (plain_history_connections_are_members sampleUnmarshal
                   sampleJoins 1 clientB 0 _ _)); by vm_compute.
Defined.
